(** * jira-sprint-summary: sprint resolution, aggregation and velocity projection

    A shallow embedding of the decision logic of the [jira-sprint-summary]
    MCP server ([JiraSprintManager] and [SprintAnalyzer]).

    Modelling conventions.
    - A JavaScript [number] that carries a measured quantity (story points,
      ratios, percentages, day counts) is an IEEE-754 binary64 value: Rocq's
      primitive [float], whose operations are the same double-precision
      operations the JavaScript engine performs.
    - Integer identifiers (board and sprint ids), occurrence counters and
      [Date.getTime()] millisecond stamps are mathematical integers; all of
      them stay far below 2^53, where doubles are exact.
    - A plain object literal used as a histogram is a [gmap] of its own
      properties together with the members it inherits from
      [Object.prototype].
    - [try]/[catch] is a sum type; the Jira client is a record of response
      functions, and every call made on it is recorded in a trace. *)

From stdpp Require Import gmap strings list fin_maps pretty.
From Stdlib Require Import ZArith Lia Ascii Sorted.
From Stdlib Require Import Floats.

Local Open Scope Z_scope.

(** ** JavaScript numbers *)

Module JS.

(** Exact conversion of an integer to the nearest double. *)
Definition of_Z (z : Z) : float :=
  SF2Prim (binary_normalize prec emax z 0 false).

(** [ToBoolean] on a number: [0], [-0] and [NaN] are falsy. *)
Definition truthy (x : float) : bool :=
  negb (is_zero x || is_nan x).

(** [x || d] on numbers. *)
Definition or_else (x d : float) : float :=
  if truthy x then x else d.

Definition signed_zero (s : bool) : float :=
  if s then neg_zero else zero.

(** [Math.floor]: the largest integer not above [x]; integral values,
    infinities and [NaN] are returned unchanged. *)
Definition Math_floor (x : float) : float :=
  match Prim2SF x with
  | S754_finite s m e =>
      if 0 <=? e then x
      else
        let n := cond_Zopp s (Z.pos m) / 2 ^ (- e) in
        if n =? 0 then signed_zero s else of_Z n
  | _ => x
  end.

(** [Math.round]: [floor(x + 1/2)] computed without intermediate
    rounding, ties going towards +infinity; a result of zero keeps the
    sign of [x]. *)
Definition Math_round (x : float) : float :=
  match Prim2SF x with
  | S754_finite s m e =>
      if 0 <=? e then x
      else
        let n := (cond_Zopp s (Z.pos m) + 2 ^ (- e - 1)) / 2 ^ (- e) in
        if n =? 0 then signed_zero s else of_Z n
  | _ => x
  end.

(** [Math.max] of two numbers: [NaN] is contagious and [+0] is larger
    than [-0]. *)
Definition Math_max (a b : float) : float :=
  if is_nan a || is_nan b then nan
  else if (a <? b)%float then b
  else if (b <? a)%float then a
  else if get_sign a then b else a.

End JS.

(** ** Data model *)

(** The fields of a Jira issue that the aggregation reads:
    [fields.status.name], [fields.issuetype.name] and
    [fields.customfield_10016] (story points, [None] when the field is
    [null] or missing). *)
Record Issue := {
  key : string;
  status : string;
  issuetype : string;
  customfield_10016 : option float
}.

(** A value stored in a histogram object: a number, or the string that
    [+ 1] produces once the left operand is not a number. *)
Inductive jsval :=
  | JNum (n : N)
  | JStr (s : string).

#[global] Instance jsval_eq_dec : EqDecision jsval.
Proof. solve_decision. Defined.

(** ** Plain objects used as histograms *)

Module Obj.

(** Function-valued members every object literal inherits from
    [Object.prototype]. *)
Definition prototype_functions : list string :=
  [ "constructor"; "hasOwnProperty"; "isPrototypeOf";
    "propertyIsEnumerable"; "toLocaleString"; "toString"; "valueOf";
    "__defineGetter__"; "__defineSetter__"; "__lookupGetter__";
    "__lookupSetter__" ]%string.

(** [String(o[k])] for a key [k] that is not an own property of the
    object literal [o] but is found on [Object.prototype]; [None] when
    [o[k]] is [undefined]. *)
Definition inherited (k : string) : option string :=
  if decide (k = "__proto__"%string) then Some "[object Object]"%string
  else if decide (k ∈ prototype_functions) then
    Some ("function " +:+
          (if decide (k = "constructor"%string) then "Object"%string else k)
          +:+ "() { [native code] }")%string
  else None.

(** The value of [(o[k] || 0) + 1]. *)
Definition next (o : gmap string jsval) (k : string) : jsval :=
  match o !! k with
  | Some (JNum n) => JNum (n + 1)
  | Some (JStr s) => if decide (s = ""%string) then JNum 1 else JStr (s +:+ "1")
  | None =>
      match inherited k with
      | Some s => JStr (s +:+ "1")
      | None => JNum 1
      end
  end.

(** [o[k] = (o[k] || 0) + 1].  Assigning a primitive to [__proto__]
    runs the inherited setter, which ignores it: no own property is
    created. *)
Definition bump (o : gmap string jsval) (k : string) : gmap string jsval :=
  if decide (k = "__proto__"%string) then o else <[k := next o k]> o.

(** Sum of the values of a histogram, defined when all of them are
    numbers. *)
Definition sum_values (o : gmap string jsval) : option N :=
  map_fold (fun _ v acc =>
              match v, acc with
              | JNum n, Some a => Some (n + a)%N
              | _, _ => None
              end) (Some 0%N) o.

End Obj.

(** ** Sprint aggregation ([getSprintDetails], the loop and the progress
    record) *)

Definition doneStatuses : list string :=
  [ "Done"; "Closed"; "Resolved"; "Completed"; "Finalizado"; "Concluído" ]%string.

(** [doneStatuses.includes(status)] *)
Definition includes (l : list string) (s : string) : bool :=
  bool_decide (s ∈ l).

(** [issue.fields.customfield_10016 || 0] *)
Definition storyPoints (i : Issue) : float :=
  match customfield_10016 i with
  | Some x => JS.or_else x 0
  | None => 0%float
  end.

Record Acc := {
  statusCounts : gmap string jsval;
  typeCounts : gmap string jsval;
  completedPoints : float;
  totalPoints : float
}.

Definition acc0 : Acc :=
  {| statusCounts := ∅; typeCounts := ∅;
     completedPoints := 0; totalPoints := 0 |}.

(** One iteration of [for (const issue of issues)]. *)
Definition step (a : Acc) (i : Issue) : Acc :=
  {| statusCounts := Obj.bump (statusCounts a) (status i);
     typeCounts := Obj.bump (typeCounts a) (issuetype i);
     completedPoints :=
       if includes doneStatuses (status i)
       then (completedPoints a + storyPoints i)%float
       else completedPoints a;
     totalPoints := (totalPoints a + storyPoints i)%float |}.

Definition loop (issues : list Issue) : Acc := fold_left step issues acc0.

Record Progress := {
  p_completedPoints : float;
  p_totalPoints : float;
  percentComplete : float
}.

Record Counts := {
  total : nat;
  byStatus : gmap string jsval;
  byType : gmap string jsval
}.

Definition percent (completed total : float) : float :=
  if (0 <? total)%float
  then JS.Math_round ((completed / total) * 100)%float
  else 0%float.

Definition aggregate (issues : list Issue) : Counts * Progress :=
  let a := loop issues in
  ({| total := length issues;
      byStatus := statusCounts a;
      byType := typeCounts a |},
   {| p_completedPoints := completedPoints a;
      p_totalPoints := totalPoints a;
      percentComplete := percent (completedPoints a) (totalPoints a) |}).

(** ** Velocity projection (the arithmetic of [buildSprintProgressPrompt]) *)

Record Sprint := {
  id : Z;
  name : string;
  goal : option string;
  startDate : option Z;   (* [Date] stamp in ms; [None]: absent or empty *)
  endDate : option Z;
  state : string
}.

(** [new Date(d).getTime()]: an absent date is an invalid [Date], whose
    time value is [NaN]. *)
Definition getTime (d : option Z) : float :=
  match d with
  | Some t => JS.of_Z t
  | None => nan
  end.

(** [1000 * 60 * 60 * 24] *)
Definition msPerDay : float := (1000 * 60 * 60 * 24)%float.

Record Velocity := {
  totalDays : float;
  daysLeft : float;
  percentTimeElapsed : float;
  pointsPerDay : float;
  projectedCompletion : float;
  burndownDifference : float
}.

(** The quantities derived from the two day counts and the progress
    record. *)
Definition velocity (totalDays daysLeft : float) (progress : Progress) : Velocity :=
  let percentTimeElapsed :=
    JS.Math_round (((totalDays - daysLeft) / totalDays) * 100)%float in
  let pointsPerDay :=
    (p_completedPoints progress / JS.or_else (totalDays - daysLeft) 1)%float in
  {| totalDays := totalDays;
     daysLeft := daysLeft;
     percentTimeElapsed := percentTimeElapsed;
     pointsPerDay := pointsPerDay;
     projectedCompletion := JS.Math_round (pointsPerDay * totalDays)%float;
     burndownDifference := (percentComplete progress - percentTimeElapsed)%float |}.

Definition project (sprint : Sprint) (progress : Progress) (today : Z) : Velocity :=
  let endTime := getTime (endDate sprint) in
  let totalDays :=
    JS.Math_floor ((endTime - getTime (startDate sprint)) / msPerDay)%float in
  let daysLeft :=
    JS.Math_max 0 (JS.Math_floor ((endTime - JS.of_Z today) / msPerDay)%float) in
  velocity totalDays daysLeft progress.

(** The same quantities as the specification words them:
    [completedPoints / max(1, daysTotal - daysLeft)]. *)
Definition pointsPerDay_spec (completed totalDays daysLeft : float) : float :=
  (completed / JS.Math_max 1 (totalDays - daysLeft))%float.

(** [round(100 * completedPoints / totalPoints)], evaluated in the order
    the specification writes it. *)
Definition percent_spec (completed total : float) : float :=
  if (0 <? total)%float
  then JS.Math_round ((100 * completed) / total)%float
  else 0%float.

(** ** Exceptions, collaborator calls and their trace *)

(** A thrown value: an [Error] object with its message, or any other
    value, kept as its [JSON.stringify] rendering. *)
Inductive exn :=
  | JsError (message : string)
  | JsThrown (json : string).

(** [e instanceof Error ? e.message : JSON.stringify(e)] *)
Definition message_of (e : exn) : string :=
  match e with
  | JsError m => m
  | JsThrown j => j
  end.

Inductive result (A : Type) :=
  | Ok (a : A)
  | Throw (e : exn).
Arguments Ok {A} a.
Arguments Throw {A} e.

(** The shape of a JSON reply with a list-valued member ([values] or
    [issues]): the reply itself may be falsy and the member may be
    missing. *)
Inductive reply (A : Type) :=
  | Falsy
  | NoList
  | Values (l : list A).
Arguments Falsy {A}.
Arguments NoList {A}.
Arguments Values {A} l.

(** Requests sent through the Jira client.  [BoardSprints b true] is
    [GET /rest/agile/1.0/board/b/sprint?state=active] and
    [BoardSprints b false] is [GET /rest/agile/1.0/board/b/sprint]. *)
Inductive call :=
  | BoardsForProject (projectKey : string)
  | BoardSprints (boardId : Z) (activeOnly : bool)
  | SearchJira (jql : string).

Record Board := { board_id : Z }.

Record Client := {
  getBoardsForProject : string -> result (reply Board);
  doRequest : Z -> bool -> result (reply Sprint);
  searchJira : string -> result (reply Issue)
}.

(** Computations that call the collaborator: the trace of calls made so
    far is threaded through, and a computation ends with a value or a
    thrown exception. *)
Definition M (A : Type) : Type := list call -> list call * result A.

Definition ret {A} (a : A) : M A := fun t => (t, Ok a).
Definition throw {A} (e : exn) : M A := fun t => (t, Throw e).
Definition bind {A B} (m : M A) (k : A -> M B) : M B :=
  fun t => match m t with
           | (t', Ok a) => k a t'
           | (t', Throw e) => (t', Throw e)
           end.
Definition try_catch {A} (m : M A) (h : exn -> M A) : M A :=
  fun t => match m t with
           | (t', Ok a) => (t', Ok a)
           | (t', Throw e) => h e t'
           end.
(** [await client.f(...)]: record the call, then continue with the reply
    or the rejection. *)
Definition request {A} (c : call) (r : result A) : M A :=
  fun t => (t ++ [c], r).
Definition run {A} (m : M A) : list call * result A := m [].

#[global] Instance M_ret : MRet M := @ret.
#[global] Instance M_bind : MBind M := fun A B k m => bind m k.

(** ** [Array.prototype.sort]

    As implemented by the engine the server runs on (V8's stable sort):
    the comparison function is only ever asked whether an element that
    comes later in the array is strictly smaller than one that comes
    earlier, [comparefn(later, earlier) < 0]; an element is placed in
    front of the first element of the already sorted prefix it is
    strictly smaller than. *)
Section Sort.
Context {A : Type} (comparefn : A -> A -> Z).

Fixpoint insert (pivot : A) (sorted : list A) : list A :=
  match sorted with
  | [] => [pivot]
  | x :: rest =>
      if comparefn pivot x <? 0 then pivot :: x :: rest
      else x :: insert pivot rest
  end.

Definition Array_sort (l : list A) : list A :=
  fold_left (fun sorted pivot => insert pivot sorted) l [].

(** No later element of the list is strictly smaller than an earlier
    one. *)
Definition ordered (l : list A) : Prop :=
  StronglySorted (fun a b => (comparefn b a <? 0) = false) l.
End Sort.

(** ** Sprint resolution ([JiraSprintManager]) *)

(** The comparison function of [getActiveSprint]:
[[
  if (!a.startDate) return 1;
  if (!b.startDate) return -1;
  return new Date(b.startDate).getTime() - new Date(a.startDate).getTime();
]]
    Only the sign of the result is used by the sort, and the sign of the
    double-precision difference of two time values is that of their exact
    difference. *)
Definition compareSprints (a b : Sprint) : Z :=
  match startDate a with
  | None => 1
  | Some ta =>
      match startDate b with
      | None => -1
      | Some tb => tb - ta
      end
  end.

Record Config := {
  projectKey : string;
  defaultBoardId : option Z   (* [None]: unset, or [NaN] from [parseInt] *)
}.

(** [!x] on an optional number. *)
Definition falsy (x : option Z) : bool :=
  match x with
  | None => true
  | Some n => n =? 0
  end.

(** [x || y] on optional numbers. *)
Definition or_opt (x y : option Z) : option Z :=
  if falsy x then y else x.

Definition typeError : exn :=
  JsError "Cannot read properties of undefined".

(** [`sprint = ${sprintId} ORDER BY status ASC, created DESC`] *)
Definition sprintJql (sprintId : Z) : string :=
  "sprint = " +:+ pretty sprintId +:+ " ORDER BY status ASC, created DESC".

(** The [sprint] member of the details: the fields of the sprint are
    copied, with [sprint.goal || "Sem objetivo definido"] for the goal. *)
Definition sprintView (sprint : Sprint) : Sprint :=
  {| id := id sprint;
     name := name sprint;
     goal := Some match goal sprint with
                  | Some g => if decide (g = ""%string)
                              then "Sem objetivo definido"%string else g
                  | None => "Sem objetivo definido"%string
                  end;
     startDate := startDate sprint;
     endDate := endDate sprint;
     state := state sprint |}.

Section Manager.
Variable client : Client.
Variable config : Config.

(** Discovery of the first board of the project, with its own
    [try]/[catch]. *)
Definition discoverBoard : M Z :=
  try_catch
    (boards ← request (BoardsForProject (projectKey config))
                          (getBoardsForProject client (projectKey config));
     match boards with
     | Values (b :: _) => ret (board_id b)
     | Values [] | Falsy =>
         throw (JsError ("Não foi possível encontrar quadros para o projeto "
                         +:+ projectKey config))
     | NoList => throw typeError
     end)
    (fun _ =>
       throw (JsError ("Não foi possível encontrar um board para o projeto "
                       +:+ projectKey config
                       +:+ ". Por favor, forneça um Board ID."))).

(** [let targetBoardId = boardId || this.defaultBoardId], followed by
    discovery when it is falsy. *)
Definition targetBoard (boardId : option Z) : M Z :=
  match or_opt boardId (defaultBoardId config) with
  | Some b => if b =? 0 then discoverBoard else ret b
  | None => discoverBoard
  end.

(** The two sprint queries and the fallback selection, with their
    [try]/[catch]. *)
Definition selectSprint (targetBoardId : Z) : M Sprint :=
  try_catch
    (resultActive ← request (BoardSprints targetBoardId true)
                                (doRequest client targetBoardId true);
     match resultActive with
     | Values (s :: _) => ret s
     | _ =>
         resultRecent ← request (BoardSprints targetBoardId false)
                                    (doRequest client targetBoardId false);
         match resultRecent with
         | Values (s :: l) =>
             match Array_sort compareSprints (s :: l) with
             | first :: _ => ret first
             | [] => throw typeError
             end
         | _ =>
             throw (JsError ("Não foram encontradas sprints para o quadro "
                             +:+ pretty targetBoardId))
         end
     end)
    (fun apiError =>
       throw (JsError ("Erro ao buscar sprint ativa: " +:+ message_of apiError))).

Definition getActiveSprint (boardId : option Z) : M Sprint :=
  try_catch
    (targetBoardId ← targetBoard boardId;
     selectSprint targetBoardId)
    (fun error =>
       match error with
       | JsError m =>
           throw (JsError ("Não foi possível encontrar a sprint ativa: " +:+ m))
       | JsThrown _ =>
           throw (JsError "Não foi possível encontrar a sprint ativa. Verifique se o Board ID está correto e se existe uma sprint ativa.")
       end).

(** [result.issues || []] inside a [try] whose [catch] returns [[]]. *)
Definition getSprintIssues (sprintId : Z) : M (list Issue) :=
  let jql := sprintJql sprintId in
  try_catch
    (result ← request (SearchJira jql) (searchJira client jql);
     match result with
     | Values l => ret l
     | NoList => ret []
     | Falsy => throw typeError
     end)
    (fun _ => ret []).

Record Details := {
  d_sprint : Sprint;
  d_issues : Counts;
  d_progress : Progress;
  allIssues : list Issue
}.

Definition getSprintDetails (boardId : option Z) : M Details :=
  try_catch
    (sprint ← getActiveSprint boardId;
     issues ← getSprintIssues (id sprint);
     let '(counts, progress) := aggregate issues in
     ret {| d_sprint := sprintView sprint; d_issues := counts;
            d_progress := progress; allIssues := issues |})
    (fun _ => throw (JsError "Não foi possível obter os detalhes da sprint")).
End Manager.

(** ** Tool parameters ([getSprintSummarySchema] and its two siblings) *)

Module Schema.

(** A string handed to [parseInt] is modelled by its UTF-8 encoding, one
    [ascii] per byte.  The characters [parseInt] gives a meaning to (signs,
    digits, letters) are one-byte characters, and no byte of a longer
    character coincides with one of them. *)
Definition code (c : Ascii.ascii) : Z := Z.of_nat (Ascii.nat_of_ascii c).

(** [StrWhiteSpaceChar]: the one-byte members TAB, LF, VT, FF, CR and
    SP; *)
Definition isWhiteSpace (c : Ascii.ascii) : bool :=
  let n := code c in
  (n =? 32) || ((9 <=? n) && (n <=? 13)).

(** the two-byte member U+00A0 (bytes C2 A0); *)
Definition isWhiteSpace2 (c1 c2 : Ascii.ascii) : bool :=
  (code c1 =? 194) && (code c2 =? 160).

(** and the three-byte members U+1680 (E1 9A 80), U+2000 to U+200A
    (E2 80 80 to E2 80 8A), U+2028, U+2029 and U+202F (E2 80 A8, A9 and
    AF), U+205F (E2 81 9F), U+3000 (E3 80 80) and U+FEFF (EF BB BF). *)
Definition isWhiteSpace3 (c1 c2 c3 : Ascii.ascii) : bool :=
  let n1 := code c1 in
  let n2 := code c2 in
  let n3 := code c3 in
  ((n1 =? 225) && (n2 =? 154) && (n3 =? 128))
  || ((n1 =? 226) && (n2 =? 128)
      && (((128 <=? n3) && (n3 <=? 138))
          || (n3 =? 168) || (n3 =? 169) || (n3 =? 175)))
  || ((n1 =? 226) && (n2 =? 129) && (n3 =? 159))
  || ((n1 =? 227) && (n2 =? 128) && (n3 =? 128))
  || ((n1 =? 239) && (n2 =? 187) && (n3 =? 191)).

(** Removal of the white space a string starts with. *)
Fixpoint trimStart (s : string) : string :=
  match s with
  | String c1 r1 =>
      if isWhiteSpace c1 then trimStart r1
      else
        match r1 with
        | String c2 r2 =>
            if isWhiteSpace2 c1 c2 then trimStart r2
            else
              match r2 with
              | String c3 r3 =>
                  if isWhiteSpace3 c1 c2 c3 then trimStart r3 else s
              | EmptyString => s
              end
        | EmptyString => s
        end
  | EmptyString => s
  end.

Definition digitValue (c : Ascii.ascii) : option Z :=
  let n := code c in
  if (48 <=? n) && (n <=? 57) then Some (n - 48)
  else if (97 <=? n) && (n <=? 122) then Some (n - 87)
  else if (65 <=? n) && (n <=? 90) then Some (n - 55)
  else None.

(** Value of the longest prefix of radix-[radix] digits; [acc] is
    [None] until a digit has been read. *)
Fixpoint digits (radix : Z) (s : string) (acc : option Z) : option Z :=
  match s with
  | String c rest =>
      match digitValue c with
      | Some d =>
          if d <? radix
          then digits radix rest (Some (radix * default 0 acc + d))
          else acc
      | None => acc
      end
  | EmptyString => acc
  end.

(** [parseInt(val)] without a radix argument; [None] stands for [NaN].
    The result is the integer the digits denote; the code only asks
    whether it is [NaN] and whether it is falsy, which the rounding of a
    long numeral to a double does not change. *)
Definition parseInt (val : string) : option Z :=
  let s := trimStart val in
  let '(negative, s) :=
    match s with
    | String "-"%char rest => (true, rest)
    | String "+"%char rest => (false, rest)
    | _ => (false, s)
    end in
  let '(radix, s) :=
    match s with
    | String "0"%char (String "x"%char rest) => (16, rest)
    | String "0"%char (String "X"%char rest) => (16, rest)
    | _ => (10, s)
    end in
  match digits radix s None with
  | Some n => Some (if negative then - n else n)
  | None => None
  end.

(** What a tool call supplies for [boardId]. *)
Inductive param :=
  | Omitted
  | Num (n : Z)
  | Str (s : string).

(** [z.union([z.number(), z.string().transform(val => { const parsed =
    parseInt(val); return isNaN(parsed) ? undefined : parsed; })])
    .optional()] *)
Definition boardId (p : param) : option Z :=
  match p with
  | Omitted => None
  | Num n => Some n
  | Str s => parseInt s
  end.

End Schema.

(** * Sample inputs and the predicates the statements use *)

Definition mkIssue (st ty : string) (pts : option float) : Issue :=
  {| key := ""; status := st; issuetype := ty; customfield_10016 := pts |}.

Definition issues_23_of_40 : list Issue :=
  [ mkIssue "Done" "Story" (Some 23%float);
    mkIssue "In Progress" "Story" (Some 17%float) ].

(** Story points of the issues whose status is a done label. *)
Definition done_points (issues : list Issue) : list float :=
  map storyPoints (List.filter (fun i => includes doneStatuses (status i)) issues).

Definition add_value (v : jsval) (acc : option N) : option N :=
  match v, acc with
  | JNum n, Some a => Some (n + a)%N
  | _, _ => None
  end.

Definition issues_constructor : list Issue :=
  [ mkIssue "constructor" "Story" None ].

Definition issues_proto : list Issue :=
  [ mkIssue "To Do" "__proto__" None ].

Definition mkProgress (completed total pct : float) : Progress :=
  {| p_completedPoints := completed; p_totalPoints := total;
     percentComplete := pct |}.

Definition day : Z := 86400000.

Definition mkSprint (start finish : option Z) : Sprint :=
  {| id := 1; name := "Sprint 1"; goal := None;
     startDate := start; endDate := finish; state := "future" |}.

Definition sprint_not_started : Sprint := mkSprint (Some (2 * day)) (Some (12 * day)).

Definition sprint_same_day : Sprint :=
  mkSprint (Some 1704067200000) (Some 1704067200000).

Definition undated (s : Sprint) : bool :=
  match startDate s with
  | None => true
  | Some _ => false
  end.

(** The sprints without a start date, in the order the list has them. *)
Definition undated_sprints (l : list Sprint) : list Sprint :=
  List.filter undated l.

Definition has_sprint (r : reply Sprint) : bool :=
  match r with
  | Values (_ :: _) => true
  | _ => false
  end.

Definition wrap_outer (e : exn) : exn :=
  match e with
  | JsError m => JsError ("Não foi possível encontrar a sprint ativa: " +:+ m)
  | JsThrown _ =>
      JsError "Não foi possível encontrar a sprint ativa. Verifique se o Board ID está correto e se existe uma sprint ativa."
  end.

(** A sprint that carries nothing but an id and a start date. *)
Definition sprint_at (i : Z) (start : option Z) : Sprint :=
  {| id := i; name := "Sprint " +:+ pretty i; goal := None;
     startDate := start; endDate := None; state := "closed" |}.

(** [new Date("2024-01-01").getTime()] and
    [new Date("2024-03-01").getTime()]. *)
Definition jan_2024 : Z := 1704067200000.
Definition mar_2024 : Z := 1709251200000.

Definition sample_sprints : list Sprint :=
  [ sprint_at 1 None; sprint_at 2 (Some jan_2024); sprint_at 3 (Some mar_2024) ].

(** A Jira whose project has board 7, with no active sprint and the three
    sample sprints. *)
Definition sample_client : Client :=
  {| getBoardsForProject := fun _ => Ok (Values [ {| board_id := 7 |} ]);
     doRequest := fun _ active =>
       if active then Ok (Values []) else Ok (Values sample_sprints);
     searchJira := fun _ => Ok (Values []) |}.

Definition sample_config : Config :=
  {| projectKey := "ACME"; defaultBoardId := None |}.

(** A Jira whose sprints can be listed but whose issue search is
    rejected. *)
Definition search_down (e : exn) : Client :=
  {| getBoardsForProject := getBoardsForProject sample_client;
     doRequest := doRequest sample_client;
     searchJira := fun _ => Throw e |}.

(** A Jira every request to which is rejected. *)
Definition all_down (e : exn) : Client :=
  {| getBoardsForProject := fun _ => Throw e;
     doRequest := fun _ _ => Throw e;
     searchJira := fun _ => Throw e |}.

(** ** Rounding to the nearest double

    The integers and predicates in which the addition of non-negative
    doubles is analysed; [prc] and [emx] are the precision and the
    exponent bound of the format. *)

(** Rounding to nearest, ties to even, of [m / 2^k]. *)
Definition rnd (m k : Z) : Z :=
  let P := 2 ^ k in
  m / P + (if (P <? 2 * (m mod P)) || ((P =? 2 * (m mod P)) && Z.odd (m / P))
           then 1 else 0).

(** Number of binary digits of a positive integer. *)
Definition dg (V : Z) : Z := Z.log2 V + 1.

Definition ext_le (a b : option Z) : Prop :=
  match a, b with
  | _, None => True
  | None, Some _ => False
  | Some u, Some v => u <= v
  end.

Section Binary.
Variables prc emx : Z.

(** What [binary_round_aux] makes of a mantissa and an exponent. *)
Definition pack (m e : Z) : spec_float :=
  match m with
  | Z0 => S754_zero false
  | Zpos p => if e <=? emx - prc then S754_finite false p e else S754_infinity false
  | Zneg _ => S754_nan
  end.

Definition fxp (e : Z) : Z := fexp prc emx e.

(** How many low bits rounding to [prc] digits drops from a positive
    integer. *)
Definition shiftn (V : Z) : Z := Z.max (dg V - prc) 0.

(** Rounding of [V * 2^emin] to the nearest floating-point number. *)
Definition RS (V : Z) : spec_float :=
  let n := shiftn V in
  let q := rnd V n in
  if q =? 2 ^ prc then pack (2 ^ (prc - 1)) (SpecFloat.emin prc emx + n + 1) else pack q (SpecFloat.emin prc emx + n).

(** The mantissa and exponent [RS] packs. *)
Definition rpair (V : Z) : Z * Z :=
  let n := shiftn V in
  let q := rnd V n in
  if q =? 2 ^ prc then (2 ^ (prc - 1), SpecFloat.emin prc emx + n + 1) else (q, SpecFloat.emin prc emx + n).

(** A mantissa and exponent in canonical form. *)
Definition canon (m e : Z) : Prop :=
  0 < m < 2 ^ prc /\ SpecFloat.emin prc emx <= e /\ (e = SpecFloat.emin prc emx \/ 2 ^ (prc - 1) <= m).

(** The value of a mantissa and exponent, in units of [2^emin]. *)
Definition val (m e : Z) : Z := m * 2 ^ (e - SpecFloat.emin prc emx).

(** The non-negative floating-point numbers: [+0], the positive finite
    numbers in canonical form, and [+infinity]. *)
Definition NN (x : spec_float) : Prop :=
  match x with
  | S754_zero false | S754_infinity false => True
  | S754_finite false m e => canon (Z.pos m) e /\ e <= emx - prc
  | _ => False
  end.

(** The value of a non-negative number in units of [2^emin]; [None] is
    [+infinity]. *)
Definition fv (x : spec_float) : option Z :=
  match x with
  | S754_zero _ => Some 0
  | S754_finite _ m e => Some (val (Z.pos m) e)
  | _ => None
  end.

(** Rounding of a non-negative value. *)
Definition RSz (V : Z) : spec_float :=
  if V =? 0 then S754_zero false else RS V.

End Binary.

Definition nonneg (x : float) : Prop := NN prec emax (Prim2SF x).

(** The scenario of the specification: a done issue of 5 points and an
    issue in progress of 3 points. *)
Definition issues_5_of_8 : list Issue :=
  [ mkIssue "Done" "Story" (Some 5%float);
    mkIssue "In Progress" "Story" (Some 3%float) ].

(** A Jira whose board 7 has two active sprints. *)
Definition active_client : Client :=
  {| getBoardsForProject := fun _ => Ok (Values [ {| board_id := 7 |} ]);
     doRequest := fun _ active =>
       if active
       then Ok (Values [ sprint_at 12 (Some mar_2024); sprint_at 11 (Some jan_2024) ])
       else Ok (Values sample_sprints);
     searchJira := fun _ => Ok (Values issues_5_of_8) |}.

(** A Jira whose project has no board and whose boards have no sprint. *)
Definition empty_client : Client :=
  {| getBoardsForProject := fun _ => Ok (Values []);
     doRequest := fun _ _ => Ok (Values []);
     searchJira := fun _ => Ok NoList |}.

(** The sprints that start at [k] ([None]: that have no start date). *)
Definition starting_at (k : option Z) (s : Sprint) : bool :=
  bool_decide (startDate s = k).

(** [b] does not start after [a]: whenever [b] is dated, so is [a], and no
    earlier. *)
Definition not_after (a b : Sprint) : Prop :=
  forall tb, startDate b = Some tb ->
  exists ta, startDate a = Some ta /\ tb <= ta.

(** ** The tasks of a user ([getUserTasks]) *)

(** [userName.includes(' ')] *)
Fixpoint includes_space (s : string) : bool :=
  match s with
  | EmptyString => false
  | String c rest => if Ascii.eqb c " "%char then true else includes_space rest
  end.

(** The double-quote character as a string. *)
Definition dquote : string := String "034"%char EmptyString.

(** The JQL of [getUserTasks]: the user name is put between double quotes
    when it contains a space. *)
Definition userTasksJql (userName : string) (sprintId : Z) : string :=
  if includes_space userName
  then "sprint = " +:+ pretty sprintId +:+ " AND assignee ~ "
       +:+ dquote +:+ userName +:+ dquote
       +:+ " ORDER BY status ASC, created DESC"
  else "sprint = " +:+ pretty sprintId +:+ " AND assignee ~ " +:+ userName
       +:+ " ORDER BY status ASC, created DESC".

(** [result.issues || []] inside a [try] whose [catch] returns [[]]. *)
Definition getUserTasks (client : Client) (userName : string) (sprintId : Z)
    : M (list Issue) :=
  let jql := userTasksJql userName sprintId in
  try_catch
    (result ← request (SearchJira jql) (searchJira client jql);
     match result with
     | Values l => ret l
     | NoList => ret []
     | Falsy => throw typeError
     end)
    (fun _ => ret []).

(** What a search reply amounts to for [getSprintIssues] and
    [getUserTasks]. *)
Definition issues_of (r : result (reply Issue)) : list Issue :=
  match r with
  | Ok (Values l) => l
  | _ => []
  end.

(** How many of the issues carry the label [k], the label being read by
    [f]. *)
Definition count_label (f : Issue -> string) (k : string) (issues : list Issue) : N :=
  N.of_nat (length (List.filter (fun i => bool_decide (f i = k)) issues)).

(** The histogram of a list of labels. *)
Definition histogram (labels : list string) : gmap string jsval :=
  fold_left Obj.bump labels ∅.

Definition issues_open : list Issue :=
  [ mkIssue "To Do" "Story" (Some 3%float);
    mkIssue "In Progress" "Bug" None ].

(** A Jira whose board listing puts a board with id 0 first. *)
Definition listing_zero_client : Client :=
  {| getBoardsForProject := fun _ => Ok (Values [ {| board_id := 0 |} ]);
     doRequest := doRequest sample_client;
     searchJira := searchJira sample_client |}.

(** ** Strings that [parseInt] reads as decimal numbers *)

(** The decimal digits. *)
Definition is_digit (c : Ascii.ascii) : Prop :=
  exists d, (d < 10)%N /\ c = pretty_N_char d.

(** A string that does not start with the mark of a hexadecimal
    literal. *)
Definition no_hex_mark (s : string) : Prop :=
  match s with
  | String c _ => c <> "x"%char /\ c <> "X"%char
  | EmptyString => True
  end.

(** A string at whose start a decimal number ends: it is empty, or its
    first character is neither a decimal digit nor [x] or [X]. *)
Definition ends_number (s : string) : Prop :=
  match s with
  | String c _ =>
      c <> "x"%char /\ c <> "X"%char
      /\ forall d, Schema.digitValue c = Some d -> 10 <= d
  | EmptyString => True
  end.


(** ** Start-up configuration ([loadEnvVars] and the construction of the
    manager) *)

Definition requiredVars : list string :=
  [ "JIRA_HOST"; "JIRA_USERNAME"; "JIRA_API_TOKEN"; "OPENAI_API_KEY";
    "JIRA_PROJECT_KEY" ]%string.

(** [!process.env[varName]]: the variable is not set, or set to the empty
    string. *)
Definition unset (env : gmap string string) (varName : string) : bool :=
  match env !! varName with
  | Some v => bool_decide (v = ""%string)
  | None => true
  end.

Record EnvVars := {
  JIRA_HOST : string;
  JIRA_USERNAME : string;
  JIRA_API_TOKEN : string;
  OPENAI_API_KEY : string;
  JIRA_PROJECT_KEY : string;
  JIRA_BOARD_ID : option Z
}.

(** [Array.prototype.join] *)
Fixpoint join (sep : string) (l : list string) : string :=
  match l with
  | [] => ""
  | [x] => x
  | x :: rest => x +:+ sep +:+ join sep rest
  end.

(** How start-up ends: [process.exit(code)] after a message on the error
    stream, or the loaded configuration. *)
Inductive startup (A : Type) :=
  | Exited (code : Z) (stderr : string)
  | Started (a : A).
Arguments Exited {A} code stderr.
Arguments Started {A} a.

Definition loadEnvVars (env : gmap string string) : startup EnvVars :=
  let missingVars := List.filter (unset env) requiredVars in
  if (0 <? length missingVars)%nat
  then Exited 1 ("Erro: As seguintes variáveis de ambiente são obrigatórias mas não foram encontradas: "
                 +:+ join ", " missingVars)
  else Started
         {| JIRA_HOST := default ""%string (env !! "JIRA_HOST"%string);
            JIRA_USERNAME := default ""%string (env !! "JIRA_USERNAME"%string);
            JIRA_API_TOKEN := default ""%string (env !! "JIRA_API_TOKEN"%string);
            OPENAI_API_KEY := default ""%string (env !! "OPENAI_API_KEY"%string);
            JIRA_PROJECT_KEY := default ""%string (env !! "JIRA_PROJECT_KEY"%string);
            JIRA_BOARD_ID :=
              if unset env "JIRA_BOARD_ID"
              then None
              else Schema.parseInt (default ""%string (env !! "JIRA_BOARD_ID"%string)) |}.

(** [new JiraSprintManager(jiraClient, envVars.JIRA_PROJECT_KEY,
    envVars.JIRA_BOARD_ID)] *)
Definition managerConfig (v : EnvVars) : Config :=
  {| projectKey := JIRA_PROJECT_KEY v; defaultBoardId := JIRA_BOARD_ID v |}.

Definition sample_env : gmap string string :=
  <["JIRA_HOST"%string := "acme.atlassian.net"%string]>
  (<["JIRA_USERNAME"%string := "bot"%string]>
  (<["JIRA_API_TOKEN"%string := "t0k3n"%string]>
  (<["OPENAI_API_KEY"%string := "sk"%string]>
  (<["JIRA_PROJECT_KEY"%string := "ACME"%string]>
  (<["JIRA_BOARD_ID"%string := "42"%string]> ∅))))).

(** ** Tactics *)

(** Requests that differ pairwise. *)
Ltac distinct_requests :=
  repeat (apply NoDup_cons; split;
          [rewrite ?elem_of_cons, elem_of_nil; intuition congruence|]);
  apply NoDup_nil_2.

(** Case analysis on the bits of a character. *)
Ltac head_char c :=
  destruct c as [[] [] [] [] [] [] [] []]; try reflexivity; try tauto.

(** * Properties *)

(** ** Aggregation *)

Lemma loop_app (l1 l2 : list Issue) :
  loop (l1 ++ l2) = fold_left step l2 (loop l1).
Proof. unfold loop. apply fold_left_app. Qed.

Lemma loop_snoc (l : list Issue) (i : Issue) :
  loop (l ++ [i]) = step (loop l) i.
Proof. by rewrite loop_app. Qed.

(** C1, as stated, fails on the code: with 23 completed points out of 40
    the code divides first, [(23 / 40) * 100] is the double
    57.49999999999999 and [Math.round] gives 57, whereas
    [round(100 * 23 / 40)] is the rounding of exactly 57.5, that is 58. *)
Lemma percent_differs_from_spec_order :
  ~ (forall issues : list Issue,
       let p := snd (aggregate issues) in
       percentComplete p = percent_spec (p_completedPoints p) (p_totalPoints p)).
Proof.
  intros H. specialize (H issues_23_of_40).
  apply (f_equal (fun x => (x =? 57)%float)) in H.
  vm_compute in H. discriminate.
Qed.

Example percent_23_of_40 :
  let p := snd (aggregate issues_23_of_40) in
  p_completedPoints p = 23%float /\ p_totalPoints p = 40%float /\
  percentComplete p = 57%float /\ percent_spec 23 40 = 58%float /\
  (2 * (100 * 23) =? 2 * 57 * 40 + 40)%Z = true.
Proof. vm_compute. done. Qed.

Lemma ltb_zero_of_eqb (t : float) : (0 =? t)%float = true -> (0 <? t)%float = false.
Proof.
  rewrite eqb_spec, ltb_spec. unfold SFeqb, SFltb.
  by destruct (SFcompare _ _) as [[]|].
Qed.

(** C1 (amended): the percentage is [Math.round((completedPoints /
    totalPoints) * 100)] in double arithmetic, the division coming first,
    when [totalPoints > 0], and 0 otherwise, in particular when
    [totalPoints] is 0; the empty issue list gives empty histograms, zero
    points and 0 percent. *)
Theorem aggregate_percentComplete (issues : list Issue) :
  let p := snd (aggregate issues) in
  percentComplete p =
    (if (0 <? p_totalPoints p)%float
     then JS.Math_round ((p_completedPoints p / p_totalPoints p) * 100)%float
     else 0%float)
  /\ ((0 =? p_totalPoints p)%float = true -> percentComplete p = 0%float)
  /\ aggregate [] =
       ({| total := 0%nat; byStatus := ∅; byType := ∅ |},
        {| p_completedPoints := 0; p_totalPoints := 0; percentComplete := 0 |}).
Proof.
  cbn zeta. split; [reflexivity|]. split; [|reflexivity].
  unfold aggregate. cbn [snd p_totalPoints percentComplete]. intros H.
  unfold percent. by rewrite ltb_zero_of_eqb.
Qed.

Lemma loop_points (issues : list Issue) :
  completedPoints (loop issues) = fold_left PrimFloat.add (done_points issues) 0%float
  /\ totalPoints (loop issues) = fold_left PrimFloat.add (map storyPoints issues) 0%float.
Proof.
  induction issues as [|i l IH] using rev_ind; [done|].
  destruct IH as [IHc IHt]. rewrite loop_snoc. unfold done_points in *.
  rewrite List.filter_app, !map_app, !fold_left_app. cbn.
  rewrite <- IHc, <- IHt. by destruct (includes doneStatuses (status i)).
Qed.

(** C2: the story points of an issue are the value of its
    [customfield_10016] when that is present and truthy, and 0 when it is
    absent (or is 0 or [NaN]); they go to [completedPoints] exactly when
    the status of the issue is, character for character, one of the six
    done labels, and always go to [totalPoints].  A done issue of 5 points
    and an issue in progress of 3 points give 5 completed points out of
    8. *)
Theorem completed_iff_done_label (issues : list Issue) (a : Acc) (i : Issue) :
  (includes doneStatuses (status i) = true <->
     status i = "Done"%string \/ status i = "Closed"%string \/
     status i = "Resolved"%string \/ status i = "Completed"%string \/
     status i = "Finalizado"%string \/ status i = "Concluído"%string)
  /\ storyPoints i =
       match customfield_10016 i with
       | Some x => if JS.truthy x then x else 0%float
       | None => 0%float
       end
  /\ completedPoints (step a i) =
       (if includes doneStatuses (status i)
        then (completedPoints a + storyPoints i)%float
        else completedPoints a)
  /\ totalPoints (step a i) = (totalPoints a + storyPoints i)%float
  /\ storyPoints (mkIssue (status i) (issuetype i) None) = 0%float
  /\ storyPoints (mkIssue "Done" "Story" (Some 5%float)) = 5%float
  /\ p_completedPoints (snd (aggregate issues_5_of_8)) = 5%float
  /\ p_totalPoints (snd (aggregate issues_5_of_8)) = 8%float
  /\ p_completedPoints (snd (aggregate issues)) =
       fold_left PrimFloat.add (done_points issues) 0%float
  /\ p_totalPoints (snd (aggregate issues)) =
       fold_left PrimFloat.add (map storyPoints issues) 0%float
  /\ includes doneStatuses "done" = false
  /\ includes doneStatuses "DONE" = false
  /\ includes doneStatuses "Concluido" = false.
Proof.
  split.
  { unfold includes, doneStatuses. rewrite bool_decide_eq_true.
    rewrite !elem_of_cons, elem_of_nil. tauto. }
  do 7 (split; [reflexivity|]).
  split; [apply loop_points|]. split; [apply loop_points|].
  by vm_compute.
Qed.

(** *** Histograms *)

Lemma add_value_comm (v1 v2 : jsval) (acc : option N) :
  add_value v1 (add_value v2 acc) = add_value v2 (add_value v1 acc).
Proof.
  destruct v1, v2, acc; cbn; try reflexivity. f_equal. lia.
Qed.

Lemma sum_values_insert_fresh (o : gmap string jsval) (k : string) (v : jsval) :
  o !! k = None ->
  Obj.sum_values (<[k := v]> o) = add_value v (Obj.sum_values o).
Proof.
  intros Hk. unfold Obj.sum_values.
  rewrite (map_fold_insert_L (fun _ => add_value)); [done| |done].
  intros. apply add_value_comm.
Qed.

Lemma sum_values_lookup (o : gmap string jsval) (k : string) (v : jsval) :
  o !! k = Some v ->
  Obj.sum_values o = add_value v (Obj.sum_values (delete k o)).
Proof.
  intros Hk. unfold Obj.sum_values.
  rewrite (map_fold_delete_L (fun _ => add_value) _ k v); [done| |done].
  intros. apply add_value_comm.
Qed.

Lemma inherited_proto : Obj.inherited "__proto__" = Some "[object Object]"%string.
Proof. reflexivity. Qed.

(** Counting a label that [Object.prototype] does not know raises the sum
    of a numeric histogram by one. *)
Lemma sum_values_bump (o : gmap string jsval) (k : string) (n : N) :
  Obj.inherited k = None ->
  Obj.sum_values o = Some n ->
  Obj.sum_values (Obj.bump o k) = Some (n + 1)%N.
Proof.
  intros Hk Hsum. unfold Obj.bump.
  destruct (decide (k = "__proto__"%string)) as [->|_]; [by rewrite inherited_proto in Hk|].
  unfold Obj.next. destruct (o !! k) as [v|] eqn:Hlook.
  - rewrite (sum_values_lookup _ _ _ Hlook) in Hsum.
    rewrite <- insert_delete_eq.
    rewrite sum_values_insert_fresh by apply lookup_delete_eq.
    destruct v as [m|s]; [|done].
    destruct (Obj.sum_values (delete k o)) as [a|]; [|done].
    cbn in *. f_equal. injection Hsum as <-. lia.
  - rewrite Hk, sum_values_insert_fresh by done.
    rewrite Hsum. cbn. f_equal. lia.
Qed.

(** For issue lists whose status and type labels avoid the member names
    of [Object.prototype], both histograms sum to the number of issues. *)
Lemma histogram_sums_plain_labels (issues : list Issue) :
  Forall (fun i => Obj.inherited (status i) = None
                   /\ Obj.inherited (issuetype i) = None) issues ->
  let c := fst (aggregate issues) in
  Obj.sum_values (byStatus c) = Some (N.of_nat (total c))
  /\ Obj.sum_values (byType c) = Some (N.of_nat (total c)).
Proof.
  cbn. induction issues as [|i l IH] using rev_ind; intros Hall.
  { by vm_compute. }
  apply Forall_app in Hall as [Hl Hi]. apply Forall_singleton in Hi as [Hs Ht].
  destruct (IH Hl) as [IHs IHt].
  rewrite loop_snoc, length_app. cbn [step statusCounts typeCounts length].
  rewrite (sum_values_bump _ _ _ Hs IHs), (sum_values_bump _ _ _ Ht IHt).
  split; f_equal; lia.
Qed.

(** C4 at a failing input: one issue whose status is named
    ["constructor"].  [statusCounts["constructor"]] is found on
    [Object.prototype], so [(statusCounts[status] || 0) + 1] is a string
    concatenation and the status histogram holds no number at all, while
    the issue count is 1.  An issue type named ["__proto__"] leaves the
    type histogram empty. *)
Theorem histogram_inherited_label :
  let c := fst (aggregate issues_constructor) in
  let c' := fst (aggregate issues_proto) in
  total c = 1%nat
  /\ byStatus c !! "constructor"%string
     = Some (JStr "function Object() { [native code] }1")
  /\ Obj.sum_values (byStatus c) = None
  /\ Obj.sum_values (byType c) = Some 1%N
  /\ total c' = 1%nat
  /\ byType c' = ∅
  /\ Obj.sum_values (byType c') = Some 0%N.
Proof. by vm_compute. Qed.

(** ** Velocity projection *)

(** Facts about comparisons of doubles, read off their specification. *)
Section FloatFacts.
Open Scope float_scope.

Lemma Prim2SF_zero : Prim2SF 0 = S754_zero false.
Proof. reflexivity. Qed.

Lemma Prim2SF_one : Prim2SF 1 = S754_finite false 4503599627370496 (-52).
Proof. reflexivity. Qed.

Lemma eqb_zero_inv (x : float) :
  (x =? 0) = true -> exists s, Prim2SF x = S754_zero s.
Proof.
  rewrite eqb_spec, Prim2SF_zero. unfold SFeqb.
  destruct (Prim2SF x) as [s|s| |s m e]; cbn; try discriminate; eauto.
  all: by destruct s.
Qed.

Lemma leb_one_inv (x : float) :
  (1 <=? x) = true ->
  (1 <? x) = true \/ x = 1.
Proof.
  rewrite leb_spec, ltb_spec. unfold SFleb, SFltb.
  destruct (SFcompare (Prim2SF 1) (Prim2SF x)) as [[]|] eqn:Hc; try discriminate; auto.
  intros _. right. apply Prim2SF_inj.
  rewrite Prim2SF_one in *.
  destruct (Prim2SF x) as [s|s| |s m e]; unfold SFcompare in Hc;
    try discriminate; try (by destruct s).
  destruct s; [discriminate|].
  destruct (-52 ?= e)%Z eqn:He; try discriminate.
  apply Z.compare_eq in He. subst e.
  rewrite Pos.compare_cont_spec in Hc. unfold Pos.switch_Eq in Hc.
  destruct (4503599627370496 ?= m)%positive eqn:Hm; try discriminate.
  apply Pos.compare_eq in Hm. by subst m.
Qed.

Lemma sub_nan (x : float) : x - nan = nan.
Proof.
  apply Prim2SF_inj. rewrite sub_spec.
  replace (Prim2SF nan) with S754_nan by reflexivity.
  unfold SF64sub, SFsub. by destruct (Prim2SF x).
Qed.
End FloatFacts.

Section GuardFacts.
Open Scope float_scope.

Lemma eqb_zero_cases (x : float) : (x =? 0) = true -> x = 0 \/ x = neg_zero.
Proof.
  intros [s Hs]%eqb_zero_inv.
  rewrite <- (SF2Prim_Prim2SF x), Hs. destruct s; auto.
Qed.

Lemma SFcompare_refl (x : spec_float) :
  x <> S754_nan -> SFcompare x x = Some Eq.
Proof.
  destruct x as [s|s| |s m e]; try done; try (by destruct s).
  intros _. unfold SFcompare.
  rewrite Z.compare_refl, Pos.compare_cont_spec, Pos.compare_refl.
  by destruct s.
Qed.

Lemma ltb_one_truthy (x : float) :
  (1 <? x) = true -> JS.truthy x = true /\ is_nan x = false.
Proof.
  intros H. unfold JS.truthy, is_zero, is_nan.
  rewrite !eqb_spec. rewrite ltb_spec, Prim2SF_one in H.
  change (Prim2SF zero) with (S754_zero false). unfold SFeqb, SFltb in *.
  destruct (Prim2SF x) as [s|s| |s m e] eqn:Hx; try discriminate.
  - by destruct s.
  - rewrite SFcompare_refl by done.
    destruct s; [discriminate|]. done.
Qed.

(** Where the guard [x || 1] of the code and the guard [max(1, x)] of
    the specification agree. *)
Lemma or_else_one_max (x : float) :
  (x =? 0) = true \/ (1 <=? x) = true ->
  JS.or_else x 1 = JS.Math_max 1 x.
Proof.
  intros [[-> | ->]%eqb_zero_cases | [H | ->]%leb_one_inv]; try reflexivity.
  destruct (ltb_one_truthy _ H) as [Ht Hn].
  unfold JS.or_else, JS.Math_max. rewrite Ht, Hn, H. reflexivity.
Qed.
End GuardFacts.

(** C5, as stated, fails on the code: for a sprint that starts in two
    days and ends in twelve, [totalDays] is 10 and [daysLeft] is 12; the
    code divides the 6 completed points by [-2], the specification by
    [max(1, -2) = 1]. *)
Lemma pointsPerDay_differs_from_max_guard :
  ~ (forall (sprint : Sprint) (progress : Progress) (today : Z),
       let v := project sprint progress today in
       pointsPerDay v =
         pointsPerDay_spec (p_completedPoints progress) (totalDays v) (daysLeft v)).
Proof.
  intros H. specialize (H sprint_not_started (mkProgress 6 20 30) 0).
  apply (f_equal (fun x => (x =? -3)%float)) in H.
  vm_compute in H. discriminate.
Qed.

Example project_not_started :
  let v := project sprint_not_started (mkProgress 6 20 30) 0 in
  totalDays v = 10%float /\ daysLeft v = 12%float /\
  pointsPerDay v = (-3)%float /\
  pointsPerDay_spec 6 (totalDays v) (daysLeft v) = 6%float /\
  projectedCompletion v = (-30)%float.
Proof. by vm_compute. Qed.

(** C5 (amended): the divisor of [pointsPerDay] is [daysTotal - daysLeft]
    unless that difference is zero (or not a number), in which case it is
    1; this is [max(1, daysTotal - daysLeft)] whenever the difference is
    zero or at least 1.  The other two formulas and the scenario hold as
    stated. *)
Theorem project_formulas (sprint : Sprint) (progress : Progress) (today : Z) :
  let v := project sprint progress today in
  let elapsed := (totalDays v - daysLeft v)%float in
  pointsPerDay v =
    (p_completedPoints progress / (if JS.truthy elapsed then elapsed else 1))%float
  /\ ((elapsed =? 0)%float = true \/ (1 <=? elapsed)%float = true ->
      pointsPerDay v =
        pointsPerDay_spec (p_completedPoints progress) (totalDays v) (daysLeft v))
  /\ projectedCompletion v = JS.Math_round (pointsPerDay v * totalDays v)%float
  /\ burndownDifference v = (percentComplete progress - percentTimeElapsed v)%float
  /\ (let w := project (mkSprint (Some 0) (Some (10 * day)))
                       (mkProgress 30 60 50) (6 * day) in
      totalDays w = 10%float /\ daysLeft w = 4%float /\
      percentTimeElapsed w = 60%float /\ pointsPerDay w = 5%float /\
      projectedCompletion w = 50%float /\
      burndownDifference w = (50 - 60)%float).
Proof.
  cbn zeta. split; [reflexivity|]. split.
  - intros H. unfold pointsPerDay_spec, project, velocity.
    cbn [pointsPerDay totalDays daysLeft].
    f_equal. by apply or_else_one_max.
  - do 2 (split; [reflexivity|]). by vm_compute.
Qed.

(** C6 at a failing input: a sprint whose start and end coincide, looked
    at one day later.  [totalDays] and [daysLeft] are 0, the code
    evaluates [((0 - 0) / 0) * 100], and both [percentTimeElapsed] and
    [burndownDifference] are [NaN]: no fallback value is substituted.
    Whatever the progress record, zero day counts give the same result. *)
Theorem zero_length_sprint_elapsed_nan (progress : Progress) :
  let v := project sprint_same_day (mkProgress 5 8 63) (1704067200000 + day) in
  totalDays v = 0%float /\ daysLeft v = 0%float
  /\ percentTimeElapsed v = nan
  /\ burndownDifference v = nan
  /\ pointsPerDay v = 5%float
  /\ projectedCompletion v = 0%float
  /\ percentTimeElapsed (velocity 0 0 progress) = nan
  /\ burndownDifference (velocity 0 0 progress) = nan.
Proof.
  cbn zeta. do 6 (split; [by vm_compute|]).
  split; [reflexivity|]. cbn. apply sub_nan.
Qed.

(** ** The fallback sort of [getActiveSprint] *)

Section SortFacts.
Context {A : Type} (comparefn : A -> A -> Z).

Lemma Array_sort_snoc (l : list A) (x : A) :
  Array_sort comparefn (l ++ [x]) = insert comparefn x (Array_sort comparefn l).
Proof. unfold Array_sort. by rewrite fold_left_app. Qed.

Lemma insert_In (p x : A) (l : list A) :
  In x (insert comparefn p l) <-> x = p \/ In x l.
Proof.
  induction l as [|y l IH]; cbn; [intuition|].
  destruct (comparefn p y <? 0); cbn; [intuition|].
  rewrite IH. intuition.
Qed.

Lemma Array_sort_In (x : A) (l : list A) :
  In x (Array_sort comparefn l) <-> In x l.
Proof.
  induction l as [|y l IH] using rev_ind; [done|].
  rewrite Array_sort_snoc, insert_In, IH, in_app_iff. cbn. intuition.
Qed.

Lemma insert_length (p : A) (l : list A) :
  length (insert comparefn p l) = S (length l).
Proof.
  induction l as [|y l IH]; cbn; [done|].
  destruct (comparefn p y <? 0); cbn; by rewrite ?IH.
Qed.

Lemma Array_sort_length (l : list A) :
  length (Array_sort comparefn l) = length l.
Proof.
  induction l as [|y l IH] using rev_ind; [done|].
  rewrite Array_sort_snoc, insert_length, IH, length_app. cbn. lia.
Qed.

(** An element that is never strictly smaller than another stays where
    it was: behind everything sorted so far. *)
Lemma insert_last (p : A) (l : list A) :
  (forall x, In x l -> (comparefn p x <? 0) = false) ->
  insert comparefn p l = l ++ [p].
Proof.
  induction l as [|y l IH]; cbn; intros H; [done|].
  rewrite (H y) by auto. f_equal. apply IH. auto.
Qed.

(** Inserting an element disturbs no other element: whatever is
    filtered out of the result was already there, in the same order. *)
Lemma insert_filter (f : A -> bool) (p : A) (l : list A) :
  f p = false ->
  List.filter f (insert comparefn p l) = List.filter f l.
Proof.
  intros Hp. induction l as [|y l IH]; cbn; [by rewrite Hp|].
  destruct (comparefn p y <? 0); cbn; rewrite ?Hp, ?IH; done.
Qed.

Hypothesis asym : forall a b, (comparefn a b <? 0) = true -> (comparefn b a <? 0) = false.
Hypothesis trans : forall a b c,
  (comparefn a b <? 0) = true -> (comparefn b c <? 0) = true -> (comparefn a c <? 0) = true.

Lemma insert_ordered (p : A) (l : list A) :
  ordered comparefn l -> ordered comparefn (insert comparefn p l).
Proof.
  unfold ordered. induction 1 as [|y l Hl IH Hy]; cbn.
  { repeat constructor. }
  destruct (comparefn p y <? 0) eqn:Hpy.
  - constructor; [by constructor|].
    constructor; [by apply asym|].
    rewrite List.Forall_forall in *. intros z Hz.
    destruct (comparefn z p <? 0) eqn:Hzp; [|done].
    rewrite <- (Hy z Hz). symmetry. by apply (trans z p y).
  - constructor; [done|].
    rewrite List.Forall_forall in *. intros z [->|Hz]%insert_In; auto.
Qed.

Lemma Array_sort_ordered (l : list A) :
  ordered comparefn (Array_sort comparefn l).
Proof.
  induction l as [|y l IH] using rev_ind; [constructor|].
  rewrite Array_sort_snoc. by apply insert_ordered.
Qed.
End SortFacts.

Lemma compareSprints_undated (a b : Sprint) :
  undated a = true -> (compareSprints a b <? 0) = false.
Proof. unfold undated, compareSprints. by destruct (startDate a). Qed.

Lemma compareSprints_lt (a b : Sprint) :
  (compareSprints a b <? 0) = true <->
  exists ta, startDate a = Some ta /\
             match startDate b with
             | None => True
             | Some tb => tb < ta
             end.
Proof.
  unfold compareSprints.
  destruct (startDate a) as [ta|], (startDate b) as [tb|]; cbn;
    rewrite ?Z.ltb_lt; split; try done; try (by intros (? & ? & ?)); try lia.
  - intros H. exists ta. split; [done|lia].
  - intros (? & [= <-] & ?). lia.
  - intros _. by exists ta.
Qed.

Lemma compareSprints_asym (a b : Sprint) :
  (compareSprints a b <? 0) = true -> (compareSprints b a <? 0) = false.
Proof.
  intros (ta & Ha & Hb)%compareSprints_lt.
  apply not_true_iff_false. intros (tb & Hb' & Ha')%compareSprints_lt.
  rewrite Ha in Ha'. rewrite Hb' in Hb. lia.
Qed.

Lemma compareSprints_trans (a b c : Sprint) :
  (compareSprints a b <? 0) = true -> (compareSprints b c <? 0) = true ->
  (compareSprints a c <? 0) = true.
Proof.
  intros (ta & Ha & Hb)%compareSprints_lt (tb & Hb' & Hc)%compareSprints_lt.
  apply compareSprints_lt. exists ta. split; [done|].
  rewrite Hb' in Hb. destruct (startDate c); [lia|done].
Qed.

(** C7: in the fallback sort, the sprints that lack a [startDate] come
    out in the relative order they came in, and behind every dated
    sprint. *)
Theorem sort_keeps_undated_order (l : list Sprint) :
  undated_sprints (Array_sort compareSprints l) = undated_sprints l
  /\ exists dated : list Sprint,
       Array_sort compareSprints l = dated ++ undated_sprints l
       /\ Forall (fun s => undated s = false) dated.
Proof.
  induction l as [|p l [IH (dated & Hd & Hall)]] using rev_ind.
  { split; [done|]. by exists []. }
  rewrite Array_sort_snoc. unfold undated_sprints in *.
  rewrite List.filter_app. cbn [List.filter].
  destruct (undated p) eqn:Hp.
  - rewrite insert_last by (intros; by apply compareSprints_undated).
    rewrite List.filter_app, IH. cbn [List.filter]. rewrite Hp.
    split; [done|]. exists dated. by rewrite Hd, <- app_assoc.
  - rewrite insert_filter, app_nil_r by done. split; [done|].
    rewrite Hd. clear Hd IH.
    induction Hall as [|d dated Hd Hall IHd]; cbn.
    + exists [p].
      destruct (List.filter undated l) as [|u us] eqn:Hu; cbn.
      { split; [done|]. by repeat constructor. }
      assert (undated u = true) as Hund.
      { assert (In u (List.filter undated l)) as Hin by (rewrite Hu; by left).
        by apply List.filter_In in Hin as [_ ?]. }
      replace (compareSprints p u <? 0) with true.
      { split; [done|]. by repeat constructor. }
      symmetry. apply compareSprints_lt.
      unfold undated in *. destruct (startDate p) as [tp|]; [|done].
      exists tp. split; [done|]. by destruct (startDate u).
    + destruct IHd as (dated' & -> & Hall').
      destruct (compareSprints p d <? 0).
      * exists (p :: d :: dated). split; [done|]. by repeat constructor.
      * exists (d :: dated'). split; [done|]. by constructor.
Qed.

(** ** Sprint resolution *)

Section ManagerFacts.
Variable client : Client.
Variable config : Config.

Lemma getActiveSprint_unfold (boardId : option Z) (t : list call) :
  getActiveSprint client config boardId t =
    match targetBoard client config boardId t with
    | (t1, Ok b) =>
        match selectSprint client b t1 with
        | (t2, Ok s) => (t2, Ok s)
        | (t2, Throw e) => (t2, Throw (wrap_outer e))
        end
    | (t1, Throw e) => (t1, Throw (wrap_outer e))
    end.
Proof.
  unfold getActiveSprint, try_catch, mbind, M_bind, bind.
  destruct (targetBoard client config boardId t) as [t1 [b|e]].
  - destruct (selectSprint client b t1) as [t2 [s|e]]; [done|by destruct e].
  - by destruct e.
Qed.

Lemma selectSprint_unfold (b : Z) (t : list call) :
  selectSprint client b t =
    match doRequest client b true with
    | Throw e =>
        (t ++ [BoardSprints b true],
         Throw (JsError ("Erro ao buscar sprint ativa: " +:+ message_of e)))
    | Ok r =>
        if has_sprint r then
          (t ++ [BoardSprints b true],
           match r with Values (s :: _) => Ok s | _ => Throw typeError end)
        else
          ((t ++ [BoardSprints b true]) ++ [BoardSprints b false],
           match doRequest client b false with
           | Throw e =>
               Throw (JsError ("Erro ao buscar sprint ativa: " +:+ message_of e))
           | Ok (Values (s :: l)) =>
               match Array_sort compareSprints (s :: l) with
               | first :: _ => Ok first
               | [] =>
                   Throw (JsError ("Erro ao buscar sprint ativa: "
                                   +:+ message_of typeError))
               end
           | Ok _ =>
               Throw (JsError ("Erro ao buscar sprint ativa: "
                               +:+ ("Não foram encontradas sprints para o quadro "
                                    +:+ pretty b)))
           end)
    end.
Proof.
  unfold selectSprint, try_catch, mbind, M_bind, bind, request, ret, throw.
  destruct (doRequest client b true) as [r|e]; [|done].
  destruct r as [| |[|s l]]; cbn [has_sprint]; try done.
  all: destruct (doRequest client b false) as [[| |[|s' l']]|e']; try done.
  all: by destruct (Array_sort compareSprints (s' :: l')).
Qed.

Lemma discoverBoard_unfold (t : list call) :
  discoverBoard client config t =
    (t ++ [BoardsForProject (projectKey config)],
     match getBoardsForProject client (projectKey config) with
     | Ok (Values (b :: _)) => Ok (board_id b)
     | _ =>
         Throw (JsError ("Não foi possível encontrar um board para o projeto "
                         +:+ projectKey config
                         +:+ ". Por favor, forneça um Board ID."))
     end).
Proof.
  unfold discoverBoard, try_catch, mbind, M_bind, bind, request, ret, throw.
  by destruct (getBoardsForProject client (projectKey config)) as [[| |[|b l]]|e].
Qed.

(** The board whose sprints are queried is the caller's or the
    configured one when that is a non-zero number, and the first
    discovered board otherwise. *)
Lemma targetBoard_Ok (boardId : option Z) (t t1 : list call) (b : Z) :
  targetBoard client config boardId t = (t1, Ok b) ->
  (or_opt boardId (defaultBoardId config) = Some b /\ b <> 0 /\ t1 = t)
  \/ (falsy (or_opt boardId (defaultBoardId config)) = true
      /\ t1 = t ++ [BoardsForProject (projectKey config)]
      /\ exists b0 rest,
           getBoardsForProject client (projectKey config) = Ok (Values (b0 :: rest))
           /\ b = board_id b0).
Proof.
  unfold targetBoard.
  destruct (or_opt boardId (defaultBoardId config)) as [d|] eqn:Ho; cbn [falsy].
  - destruct (d =? 0) eqn:Hd.
    + rewrite discoverBoard_unfold. intros [= <- H]. right.
      split; [done|]. split; [done|].
      destruct (getBoardsForProject client (projectKey config))
        as [[| |[|b0 rest]]|e]; try discriminate.
      injection H as <-. eauto.
    + intros [= <- <-]. left. split; [done|]. split; [lia|done].
  - rewrite discoverBoard_unfold. intros [= <- H]. right.
    split; [done|]. split; [done|].
    destruct (getBoardsForProject client (projectKey config))
      as [[| |[|b0 rest]]|e]; try discriminate.
    injection H as <-. eauto.
Qed.

Lemma targetBoard_trace (boardId : option Z) (t : list call) :
  fst (targetBoard client config boardId t) = t
  \/ fst (targetBoard client config boardId t)
     = t ++ [BoardsForProject (projectKey config)].
Proof.
  unfold targetBoard.
  destruct (or_opt boardId (defaultBoardId config)) as [d|];
    [destruct (d =? 0)|]; rewrite ?discoverBoard_unfold; cbn; auto.
Qed.

Lemma selectSprint_trace (b : Z) (t : list call) :
  fst (selectSprint client b t) = t ++ [BoardSprints b true]
  \/ fst (selectSprint client b t)
     = (t ++ [BoardSprints b true]) ++ [BoardSprints b false].
Proof.
  rewrite selectSprint_unfold.
  destruct (doRequest client b true) as [r|e]; [destruct (has_sprint r)|]; auto.
Qed.

(** Every sprint query of [getActiveSprint] goes to the board chosen by
    [targetBoard]. *)
Lemma getActiveSprint_queries (boardId : option Z) (b : Z) (act : bool) :
  In (BoardSprints b act) (fst (run (getActiveSprint client config boardId))) ->
  exists t1, targetBoard client config boardId [] = (t1, Ok b).
Proof.
  unfold run. rewrite getActiveSprint_unfold.
  pose proof (targetBoard_trace boardId []) as Ht.
  destruct (targetBoard client config boardId []) as [t1 [b'|e]] eqn:Htb;
    cbn [fst] in Ht.
  - pose proof (selectSprint_trace b' t1) as Hs.
    assert (In (BoardSprints b act) (fst (selectSprint client b' t1)) ->
            b = b') as Hb.
    { destruct Ht as [-> | ->], Hs as [-> | ->]; rewrite ?in_app_iff; cbn.
      all: intuition congruence. }
    destruct (selectSprint client b' t1) as [t2 [s|e]]; cbn [fst] in *.
    all: intros H; rewrite (Hb H); eauto.
  - cbn [fst]. destruct Ht as [-> | ->]; cbn; [done|].
    intros [H|[]]. discriminate.
Qed.
End ManagerFacts.

(** *** The fallback tier *)

(** Nothing in the list is strictly smaller than the first element of the
    sorted list. *)
Lemma Array_sort_head (l : list Sprint) (s : Sprint) (rest : list Sprint) :
  Array_sort compareSprints l = s :: rest ->
  forall d, In d l -> (compareSprints d s <? 0) = false.
Proof.
  intros Hsort d Hd.
  pose proof (Array_sort_ordered compareSprints compareSprints_asym
                compareSprints_trans l) as Hord.
  rewrite Hsort in Hord. apply StronglySorted_inv in Hord as [_ Hrest].
  apply (Array_sort_In compareSprints) in Hd. rewrite Hsort in Hd.
  destruct Hd as [<- | Hd].
  - apply not_true_iff_false. intros (ts & Hs & Hlt)%compareSprints_lt.
    rewrite Hs in Hlt. lia.
  - rewrite List.Forall_forall in Hrest. by apply Hrest.
Qed.

Lemma Array_sort_nonempty (l : list Sprint) :
  l <> [] -> exists s rest, Array_sort compareSprints l = s :: rest.
Proof.
  intros Hl. pose proof (Array_sort_length compareSprints l) as Hlen.
  destruct (Array_sort compareSprints l) as [|s rest]; [|eauto].
  destruct l; [done|discriminate].
Qed.

(** C3: when the active-sprint query on the target board yields no
    sprint and the unfiltered query yields a non-empty list,
    [getActiveSprint] returns the first element of that list as sorted by
    the fallback comparison.  The returned sprint is one of the list; its
    start date is at least that of every dated sprint of the list; and it
    is dated as soon as one sprint of the list is.  For the list
    [[{startDate: null}, {2024-01-01}, {2024-03-01}]] the sorted list is
    2024-03-01, 2024-01-01, undated, and the 2024-03-01 sprint is
    returned. *)
Theorem fallback_returns_most_recent
    (client : Client) (config : Config) (boardId : option Z)
    (t1 : list call) (b : Z) (r : reply Sprint) (l : list Sprint) :
  targetBoard client config boardId [] = (t1, Ok b) ->
  doRequest client b true = Ok r ->
  has_sprint r = false ->
  doRequest client b false = Ok (Values l) ->
  l <> [] ->
  (exists s rest,
     run (getActiveSprint client config boardId)
       = (t1 ++ [BoardSprints b true; BoardSprints b false], Ok s)
     /\ Array_sort compareSprints l = s :: rest
     /\ In s l
     /\ (forall d td, In d l -> startDate d = Some td ->
           exists ts, startDate s = Some ts /\ td <= ts)
     /\ ((exists d, In d l /\ undated d = false) -> undated s = false))
  /\ Array_sort compareSprints sample_sprints
      = [ sprint_at 3 (Some mar_2024); sprint_at 2 (Some jan_2024);
          sprint_at 1 None ]
  /\ snd (run (getActiveSprint sample_client sample_config None))
      = Ok (sprint_at 3 (Some mar_2024)).
Proof.
  intros Htb Hact Hr Hall Hl. split; [|by vm_compute].
  destruct (Array_sort_nonempty l Hl) as (s & rest & Hsort).
  exists s, rest.
  assert (forall d td, In d l -> startDate d = Some td ->
            exists ts, startDate s = Some ts /\ td <= ts) as Hmax.
  { intros d td Hd Hdate.
    pose proof (Array_sort_head l s rest Hsort d Hd) as Hge.
    destruct (startDate s) as [ts|] eqn:Hs.
    - exists ts. split; [done|].
      destruct (Z.le_gt_cases td ts) as [|Hlt]; [done|].
      assert ((compareSprints d s <? 0) = true) as Hc; [|congruence].
      apply compareSprints_lt. exists td. by rewrite Hs.
    - assert ((compareSprints d s <? 0) = true) as Hc; [|congruence].
      apply compareSprints_lt. exists td. by rewrite Hs. }
  split.
  { unfold run. rewrite getActiveSprint_unfold, Htb, selectSprint_unfold.
    rewrite Hact, Hr, Hall. destruct l as [|x l']; [done|].
    rewrite Hsort. by rewrite <- app_assoc. }
  split; [done|]. split.
  { apply (Array_sort_In compareSprints). rewrite Hsort. by left. }
  split; [done|].
  intros (d & Hd & Hdated). unfold undated in *.
  destruct (startDate d) as [td|] eqn:Hdate; [|done].
  destruct (Hmax d td Hd Hdate) as (ts & -> & _). done.
Qed.

(** The hypotheses of C3 hold for the sample Jira: board 7 is discovered,
    it has no active sprint, and its sprints are the three sample
    sprints. *)
Lemma fallback_returns_most_recent_sample :
  (exists s rest,
     run (getActiveSprint sample_client sample_config None)
       = ([BoardsForProject "ACME"] ++ [BoardSprints 7 true; BoardSprints 7 false],
          Ok s)
     /\ Array_sort compareSprints sample_sprints = s :: rest
     /\ In s sample_sprints
     /\ (forall d td, In d sample_sprints -> startDate d = Some td ->
           exists ts, startDate s = Some ts /\ td <= ts)
     /\ ((exists d, In d sample_sprints /\ undated d = false) -> undated s = false))
  /\ Array_sort compareSprints sample_sprints
      = [ sprint_at 3 (Some mar_2024); sprint_at 2 (Some jan_2024);
          sprint_at 1 None ]
  /\ snd (run (getActiveSprint sample_client sample_config None))
      = Ok (sprint_at 3 (Some mar_2024)).
Proof.
  apply (fallback_returns_most_recent sample_client sample_config None
           [BoardsForProject "ACME"] 7 (Values []) sample_sprints);
    [reflexivity | reflexivity | reflexivity | reflexivity | discriminate].
Defined.

(** *** Failures of the collaborator *)

Section FailureFacts.
Variable client : Client.
Variable config : Config.

Lemma getSprintIssues_unfold (sprintId : Z) (t : list call) :
  getSprintIssues client sprintId t =
    (t ++ [SearchJira (sprintJql sprintId)],
     Ok match searchJira client (sprintJql sprintId) with
        | Ok (Values l) => l
        | _ => []
        end).
Proof.
  unfold getSprintIssues, try_catch, mbind, M_bind, bind, request, ret, throw.
  by destruct (searchJira client (sprintJql sprintId)) as [[| |l]|e].
Qed.

Lemma getSprintDetails_unfold (boardId : option Z) (t : list call) :
  getSprintDetails client config boardId t =
    match getActiveSprint client config boardId t with
    | (t1, Ok sprint) =>
        let '(t2, issues) := getSprintIssues client (id sprint) t1 in
        (t2,
         match issues with
         | Ok issues =>
             Ok {| d_sprint := sprintView sprint;
                   d_issues := fst (aggregate issues);
                   d_progress := snd (aggregate issues);
                   allIssues := issues |}
         | Throw _ => Throw (JsError "Não foi possível obter os detalhes da sprint")
         end)
    | (t1, Throw _) =>
        (t1, Throw (JsError "Não foi possível obter os detalhes da sprint"))
    end.
Proof.
  unfold getSprintDetails, try_catch, mbind, M_bind, bind.
  destruct (getActiveSprint client config boardId t) as [t1 [sprint|e]]; [|done].
  rewrite getSprintIssues_unfold. reflexivity.
Qed.
End FailureFacts.

(** C8, as stated, fails on the code: when the issue search is rejected,
    [getSprintIssues] logs the failure and returns the empty list; nothing
    is thrown. *)
Lemma issue_search_failure_not_raised :
  ~ (forall (client : Client) (sprintId : Z) (e : exn),
       searchJira client (sprintJql sprintId) = Throw e ->
       exists e', snd (run (getSprintIssues client sprintId)) = Throw e').
Proof.
  intros H.
  destruct (H (search_down (JsError "ECONNREFUSED")) 42 (JsError "ECONNREFUSED")
              eq_refl) as [e' He'].
  vm_compute in He'. discriminate.
Qed.

(** C8 (amended): a rejected sprint query, active or unfiltered, is
    rethrown by [getActiveSprint] as an error whose message is the
    underlying message behind two fixed prefixes; a rejected board listing
    is rethrown with a fixed message that names the project and drops the
    underlying message; a rejected issue search makes [getSprintIssues]
    return the empty list; and [getSprintDetails] replaces every failure of
    sprint resolution by one fixed message. *)
Theorem collaborator_failures
    (client : Client) (config : Config) (boardId : option Z) (e : exn) :
  (forall t1 b,
     targetBoard client config boardId [] = (t1, Ok b) ->
     doRequest client b true = Throw e ->
     run (getActiveSprint client config boardId)
       = (t1 ++ [BoardSprints b true],
          Throw (JsError ("Não foi possível encontrar a sprint ativa: "
                          +:+ "Erro ao buscar sprint ativa: " +:+ message_of e))))
  /\ (forall t1 b r,
        targetBoard client config boardId [] = (t1, Ok b) ->
        doRequest client b true = Ok r -> has_sprint r = false ->
        doRequest client b false = Throw e ->
        run (getActiveSprint client config boardId)
          = (t1 ++ [BoardSprints b true; BoardSprints b false],
             Throw (JsError ("Não foi possível encontrar a sprint ativa: "
                             +:+ "Erro ao buscar sprint ativa: " +:+ message_of e))))
  /\ (falsy (or_opt boardId (defaultBoardId config)) = true ->
      getBoardsForProject client (projectKey config) = Throw e ->
      run (getActiveSprint client config boardId)
        = ([BoardsForProject (projectKey config)],
           Throw (JsError ("Não foi possível encontrar a sprint ativa: "
                           +:+ "Não foi possível encontrar um board para o projeto "
                           +:+ projectKey config
                           +:+ ". Por favor, forneça um Board ID."))))
  /\ (forall sprintId,
        searchJira client (sprintJql sprintId) = Throw e ->
        run (getSprintIssues client sprintId)
          = ([SearchJira (sprintJql sprintId)], Ok []))
  /\ (forall t m,
        run (getActiveSprint client config boardId) = (t, Throw m) ->
        run (getSprintDetails client config boardId)
          = (t, Throw (JsError "Não foi possível obter os detalhes da sprint"))).
Proof.
  repeat split.
  - intros t1 b Htb Hact. unfold run.
    by rewrite getActiveSprint_unfold, Htb, selectSprint_unfold, Hact.
  - intros t1 b r Htb Hact Hr Hall. unfold run.
    rewrite getActiveSprint_unfold, Htb, selectSprint_unfold, Hact, Hr, Hall.
    by rewrite <- app_assoc.
  - intros Hfalsy Hboards. unfold run.
    rewrite getActiveSprint_unfold. unfold targetBoard.
    destruct (or_opt boardId (defaultBoardId config)) as [d|]; cbn in Hfalsy;
      rewrite ?Hfalsy, discoverBoard_unfold, Hboards; reflexivity.
  - intros sprintId Hsearch. unfold run.
    by rewrite getSprintIssues_unfold, Hsearch.
  - intros t m Hrun. unfold run in *.
    by rewrite getSprintDetails_unfold, Hrun.
Qed.

(** The cases of C8 (amended) at a Jira that rejects every request with
    the message ["socket hang up"]: with board 7 configured the sprint
    query fails, without a board the board listing fails, and the issue
    search fails. *)
Lemma collaborator_failures_sample :
  run (getActiveSprint (all_down (JsError "socket hang up"))
         {| projectKey := "ACME"; defaultBoardId := Some 7 |} None)
    = ([BoardSprints 7 true],
       Throw (JsError "Não foi possível encontrar a sprint ativa: Erro ao buscar sprint ativa: socket hang up"))
  /\ run (getActiveSprint (all_down (JsError "socket hang up")) sample_config None)
     = ([BoardsForProject "ACME"],
        Throw (JsError "Não foi possível encontrar a sprint ativa: Não foi possível encontrar um board para o projeto ACME. Por favor, forneça um Board ID."))
  /\ run (getSprintIssues (all_down (JsError "socket hang up")) 42)
     = ([SearchJira "sprint = 42 ORDER BY status ASC, created DESC"], Ok [])
  /\ run (getSprintDetails (all_down (JsError "socket hang up")) sample_config None)
     = ([BoardsForProject "ACME"],
        Throw (JsError "Não foi possível obter os detalhes da sprint")).
Proof.
  pose proof (collaborator_failures (all_down (JsError "socket hang up"))
                {| projectKey := "ACME"; defaultBoardId := Some 7 |} None
                (JsError "socket hang up")) as (H1 & _).
  pose proof (collaborator_failures (all_down (JsError "socket hang up"))
                sample_config None (JsError "socket hang up"))
    as (_ & _ & H3 & H4 & H5).
  split; [exact (H1 [] 7 eq_refl eq_refl)|].
  split; [exact (H3 eq_refl eq_refl)|].
  split; [exact (H4 42 eq_refl)|].
  exact (H5 _ _ (H3 eq_refl eq_refl)).
Defined.

(** *** The board parameter of the tools *)

Lemma getSprintDetails_trace (client : Client) (config : Config)
    (boardId : option Z) (c : call) :
  In c (fst (run (getSprintDetails client config boardId))) ->
  In c (fst (run (getActiveSprint client config boardId)))
  \/ exists sprintId, c = SearchJira (sprintJql sprintId).
Proof.
  unfold run. rewrite getSprintDetails_unfold.
  destruct (getActiveSprint client config boardId []) as [t1 [sprint|e]];
    cbn [fst]; [|auto].
  rewrite getSprintIssues_unfold. cbn [fst]. rewrite in_app_iff. cbn.
  intros [H|[<-|[]]]; eauto.
Qed.

(** C10, as stated, fails on the code in its last part: when no board id
    is usable and the board listing of the project puts a board with id 0
    first, that board is the target, and its sprints are queried. *)
Lemma board_zero_queried :
  ~ (forall (client : Client) (config : Config) (p : Schema.param),
       p = Schema.Num 0
       \/ (exists s, p = Schema.Str s /\ Schema.parseInt s = None) ->
       forall act,
         ~ In (BoardSprints 0 act)
             (fst (run (getActiveSprint client config (Schema.boardId p))))).
Proof.
  intros H.
  apply (H listing_zero_client sample_config (Schema.Num 0) (or_introl eq_refl) true).
  vm_compute. tauto.
Qed.

(** White space that [parseInt] skips in front of a numeral, of one, two
    and three bytes: a tab and a space, U+00A0, U+2003, U+3000 and
    U+FEFF. *)
Example parseInt_white_space :
  Schema.parseInt (String "009" (String " " "7")) = Some 7
  /\ Schema.parseInt (String "194" (String "160" "7")) = Some 7
  /\ Schema.parseInt (String "226" (String "128" (String "131" "7"))) = Some 7
  /\ Schema.parseInt (String "227" (String "128" (String "128" "7"))) = Some 7
  /\ Schema.parseInt (String "239" (String "187" (String "191" "7"))) = Some 7
  /\ Schema.parseInt (String "226" (String "128" (String "139" "7"))) = None.
Proof. by vm_compute. Qed.

(** C10 (amended): a tool called with [boardId] 0, or with a [boardId]
    string that [parseInt] cannot read, resolves the sprint exactly as a
    call without [boardId].  The target board is the configured default
    when that is a non-zero number and the first board of the project's
    listing otherwise; once the target board is found, the first request
    that follows is the active-sprint query on that board, followed at
    most by the unfiltered query on the same board; when it is not found,
    the failure is rethrown.  A sprint query goes to board 0 only when the
    configured default is unusable and the board listing itself puts a
    board with id 0 first. *)
Theorem boardId_zero_or_unparsable
    (client : Client) (config : Config) (p : Schema.param) :
  p = Schema.Num 0 \/ (exists s, p = Schema.Str s /\ Schema.parseInt s = None) ->
  getActiveSprint client config (Schema.boardId p)
    = getActiveSprint client config (Schema.boardId Schema.Omitted)
  /\ getSprintDetails client config (Schema.boardId p)
     = getSprintDetails client config (Schema.boardId Schema.Omitted)
  /\ targetBoard client config (Schema.boardId p)
     = match defaultBoardId config with
       | Some d => if d =? 0 then discoverBoard client config else ret d
       | None => discoverBoard client config
       end
  /\ (forall t1 b,
        targetBoard client config (Schema.boardId Schema.Omitted) [] = (t1, Ok b) ->
        exists t2 r,
          run (getActiveSprint client config (Schema.boardId p))
            = (t1 ++ BoardSprints b true :: t2, r)
          /\ (t2 = [] \/ t2 = [BoardSprints b false]))
  /\ (forall t1 e,
        targetBoard client config (Schema.boardId Schema.Omitted) [] = (t1, Throw e) ->
        run (getActiveSprint client config (Schema.boardId p))
          = (t1, Throw (wrap_outer e)))
  /\ (forall act,
        In (BoardSprints 0 act)
           (fst (run (getActiveSprint client config (Schema.boardId p)))) ->
        falsy (defaultBoardId config) = true
        /\ exists b0 rest,
             getBoardsForProject client (projectKey config)
               = Ok (Values (b0 :: rest))
             /\ board_id b0 = 0)
  /\ (forall act,
        In (BoardSprints 0 act)
           (fst (run (getSprintDetails client config (Schema.boardId p)))) ->
        falsy (defaultBoardId config) = true
        /\ exists b0 rest,
             getBoardsForProject client (projectKey config)
               = Ok (Values (b0 :: rest))
             /\ board_id b0 = 0).
Proof.
  intros Hp.
  assert (Schema.boardId p = Some 0 \/ Schema.boardId p = None) as Hb.
  { destruct Hp as [-> | (s & -> & Hs)]; cbn; auto. }
  assert (getActiveSprint client config (Schema.boardId p)
          = getActiveSprint client config (Schema.boardId Schema.Omitted)) as Hsame.
  { by destruct Hb as [-> | ->]. }
  assert (forall act,
            In (BoardSprints 0 act)
               (fst (run (getActiveSprint client config (Schema.boardId p)))) ->
            falsy (defaultBoardId config) = true
            /\ exists b0 rest,
                 getBoardsForProject client (projectKey config)
                   = Ok (Values (b0 :: rest))
                 /\ board_id b0 = 0) as Hzero.
  { intros act [t1 Htb]%getActiveSprint_queries.
    apply targetBoard_Ok in Htb
      as [(_ & Hne & _) | (Hf & _ & b0 & rest & Hlist & Hid)]; [done|].
    split; [by destruct Hb as [Hb | Hb]; rewrite Hb in Hf|]. eauto. }
  split; [done|].
  split; [by destruct Hb as [-> | ->]|].
  split; [by destruct Hb as [-> | ->]|].
  split.
  { intros t1 b Htb. rewrite Hsame. unfold run.
    rewrite getActiveSprint_unfold, Htb.
    pose proof (selectSprint_trace client b t1) as Hs.
    destruct (selectSprint client b t1) as [t [s|e]]; cbn [fst] in Hs.
    all: destruct Hs as [-> | ->]; rewrite <- ?app_assoc; eauto. }
  split.
  { intros t1 e Htb. rewrite Hsame. unfold run.
    by rewrite getActiveSprint_unfold, Htb. }
  split; [done|].
  intros act [H | (sprintId & H)]%getSprintDetails_trace; [|discriminate].
  by apply (Hzero act).
Qed.

(** C10 (amended) at the sample Jira, called with the string ["abc"]: the
    project's board 7 is discovered and queried. *)
Lemma boardId_zero_or_unparsable_sample :
  run (getActiveSprint sample_client sample_config
         (Schema.boardId (Schema.Str "abc")))
    = run (getActiveSprint sample_client sample_config
             (Schema.boardId Schema.Omitted))
  /\ exists t2 r,
       run (getActiveSprint sample_client sample_config
              (Schema.boardId (Schema.Str "abc")))
         = ([BoardsForProject "ACME"] ++ BoardSprints 7 true :: t2, r)
       /\ (t2 = [] \/ t2 = [BoardSprints 7 false]).
Proof.
  destruct (boardId_zero_or_unparsable sample_client sample_config
              (Schema.Str "abc")) as (Hsame & _ & _ & Hquery & _).
  { right. exists "abc"%string. split; reflexivity. }
  split; [by rewrite Hsame|].
  apply (Hquery [BoardsForProject "ACME"] 7). reflexivity.
Defined.

(** ** Addition of non-negative doubles

    The kernel specifies [x + y] on doubles as [SFadd prec emax]; on
    non-negative numbers it is the rounding to nearest, ties to even, of
    the exact sum, and therefore monotone. *)

Section Rounding.
Variables prc emx : Z.
Hypothesis prc_pos : 0 < prc.

Local Abbreviation emn := (SpecFloat.emin prc emx).

Lemma digits2_size (m : positive) : digits2_pos m = Pos.size m.
Proof. induction m; cbn; congruence. Qed.

Lemma digits2_bounds (m : positive) :
  2 ^ (Z.pos (digits2_pos m) - 1) <= Z.pos m < 2 ^ Z.pos (digits2_pos m).
Proof.
  rewrite digits2_size. split.
  - pose proof (Pos.size_le m) as H.
    apply Pos2Z.pos_le_pos in H. rewrite Pos2Z.inj_pow in H.
    replace (Z.pos (Pos.size m)) with (Z.succ (Z.pos (Pos.size m) - 1)) in H by lia.
    rewrite Z.pow_succ_r in H by lia. lia.
  - pose proof (Pos.size_gt m) as H.
    apply Pos2Z.pos_lt_pos in H. by rewrite Pos2Z.inj_pow in H.
Qed.

Lemma digits_unique (x d d' : Z) :
  2 ^ (d - 1) <= x < 2 ^ d -> 2 ^ (d' - 1) <= x < 2 ^ d' -> 0 < d -> 0 < d' -> d = d'.
Proof.
  intros [H1 H2] [H3 H4] Hd Hd'.
  destruct (Z.lt_trichotomy d d') as [Hlt | [-> | Hlt]]; [|done|].
  - assert (2 ^ d <= 2 ^ (d' - 1)) by (apply Z.pow_le_mono_r; lia). lia.
  - assert (2 ^ d' <= 2 ^ (d - 1)) by (apply Z.pow_le_mono_r; lia). lia.
Qed.

Lemma iter_pos_nat {A} (f : A -> A) (p : positive) (x : A) :
  iter_pos f p x = Nat.iter (Pos.to_nat p) f x.
Proof.
  revert x. induction p as [p IH|p IH|]; intros x; cbn [iter_pos].
  - rewrite !IH, Pos2Nat.inj_xI, <- Nat.iter_add, <- Nat.iter_succ_r. f_equal. lia.
  - rewrite !IH, Pos2Nat.inj_xO, <- Nat.iter_add. f_equal. lia.
  - reflexivity.
Qed.

Lemma iter_xO (m : positive) (k : nat) :
  Z.pos (Nat.iter k xO m) = Z.pos m * 2 ^ Z.of_nat k.
Proof.
  induction k as [|k IH]; [cbn; lia|].
  rewrite Nat2Z.inj_succ, Z.pow_succ_r by lia.
  change (Nat.iter (S k) xO m) with (xO (Nat.iter k xO m)).
  rewrite Pos2Z.inj_xO, IH. lia.
Qed.

Lemma iter_xO_pos (m d : positive) :
  Z.pos (Pos.iter xO m d) = Z.pos m * 2 ^ Z.pos d.
Proof.
  rewrite <- (positive_nat_Z d), <- iter_xO.
  by rewrite Pos2Nat.inj_iter.
Qed.


(** [shr_1] on a non-negative mantissa. *)
Lemma shr_1_nonneg (q : Z) (rb st : bool) :
  0 <= q ->
  shr_1 {| shr_m := q; shr_r := rb; shr_s := st |}
    = {| shr_m := q / 2; shr_r := Z.odd q; shr_s := rb || st |}.
Proof.
  intros Hq. rewrite <- Z.div2_div.
  destruct q as [|[p|p|]|]; try reflexivity. lia.
Qed.

Lemma div_mod_double (m P : Z) :
  0 <= m -> 0 < P ->
  m / (2 * P) = m / P / 2
  /\ m mod (2 * P) = m mod P + P * (if Z.odd (m / P) then 1 else 0).
Proof.
  intros Hm HP.
  pose proof (Z.div_mod m P ltac:(lia)) as Hdm.
  pose proof (Z.mod_pos_bound m P HP) as Hr.
  pose proof (Z.div_pos m P Hm HP) as Hq.
  pose proof (Z.div_mod (m / P) 2 ltac:(lia)) as Hdq.
  pose proof (Z.mod_pos_bound (m / P) 2 ltac:(lia)) as Hb.
  assert ((if Z.odd (m / P) then 1 else 0) = (m / P) mod 2) as Hodd.
  { rewrite Zmod_odd. by destruct (Z.odd (m / P)). }
  rewrite Hodd.
  apply (Z.div_mod_unique (2 * P)); [left; apply Z.mod_pos_bound; lia | left; nia |].
  rewrite <- Z.div_mod by lia. nia.
Qed.

(** The record after [k] right shifts of a non-negative mantissa: the
    quotient, whether the remainder reaches half a unit, and whether it
    differs from zero and from half a unit. *)
Lemma shr_iter (k : nat) (m : Z) :
  0 <= m ->
  let P := 2 ^ Z.of_nat k in
  Nat.iter k shr_1 {| shr_m := m; shr_r := false; shr_s := false |}
    = {| shr_m := m / P;
         shr_r := P <=? 2 * (m mod P);
         shr_s := negb ((2 * (m mod P)) mod P =? 0) |}.
Proof.
  intros Hm. induction k as [|k IH]; cbn zeta.
  { cbn [Nat.iter nat_rect]. change (2 ^ Z.of_nat 0) with 1.
    rewrite Z.div_1_r, Z.mod_1_r. reflexivity. }
  change (Nat.iter (S k) shr_1 ?x) with (shr_1 (Nat.iter k shr_1 x)).
  cbn zeta in IH. rewrite IH. clear IH.
  rewrite Nat2Z.inj_succ, Z.pow_succ_r by lia.
  set (P := 2 ^ Z.of_nat k).
  assert (0 < P) as HP by (apply Z.pow_pos_nonneg; lia).
  pose proof (Z.mod_pos_bound m P HP) as Hr.
  pose proof (Z.div_pos m P Hm HP) as Hq.
  destruct (div_mod_double m P Hm HP) as [Hdiv Hmod].
  rewrite shr_1_nonneg by done. rewrite Hdiv, Hmod.
  set (r := m mod P) in *. set (q := m / P) in *.
  f_equal.
  - destruct (Z.odd q); [apply eq_sym, Z.leb_le | apply eq_sym, Z.leb_gt]; lia.
  - assert ((2 * (r + P * (if Z.odd q then 1 else 0))) mod (2 * P) = 2 * r) as ->.
    { symmetry. apply (Z.mod_unique_pos _ _ (if Z.odd q then 1 else 0)); [lia|].
      destruct (Z.odd q); lia. }
    destruct (Z.leb_spec P (2 * r)) as [Hle|Hlt]; cbn [orb].
    + symmetry. apply negb_true_iff, Z.eqb_neq. lia.
    + rewrite Z.mod_small by lia. reflexivity.
Qed.

Lemma round_shr (k : nat) (m : Z) :
  0 <= m ->
  let mrs := Nat.iter k shr_1 {| shr_m := m; shr_r := false; shr_s := false |} in
  round_nearest_even (shr_m mrs) (loc_of_shr_record mrs) = rnd m (Z.of_nat k).
Proof.
  intros Hm. cbn zeta. rewrite shr_iter by done. unfold rnd.
  set (P := 2 ^ Z.of_nat k).
  assert (0 < P) as HP by (apply Z.pow_pos_nonneg; lia).
  pose proof (Z.mod_pos_bound m P HP) as Hr.
  set (r := m mod P) in *. set (q := m / P) in *.
  cbn [shr_m loc_of_shr_record].
  destruct (Z.leb_spec P (2 * r)) as [Hle|Hlt].
  - destruct (Z.eqb_spec ((2 * r) mod P) 0) as [Hz|Hnz]; cbn [negb].
    + assert (2 * r = P) as Heq.
      { pose proof (Z.div_mod (2 * r) P ltac:(lia)) as Hd. rewrite Hz in Hd.
        assert ((2 * r) / P = 1) as H1; [|lia].
        symmetry. apply (Z.div_unique_pos _ _ _ (2 * r - P)); lia. }
      cbn [round_nearest_even].
      replace (P <? 2 * r) with false by (symmetry; apply Z.ltb_ge; lia).
      replace (P =? 2 * r) with true by (symmetry; apply Z.eqb_eq; lia).
      cbn [orb andb]. rewrite <- Z.negb_even. destruct (Z.even q); cbn; lia.
    + assert (P < 2 * r) as Hgt.
      { destruct (Z.eq_dec P (2 * r)) as [Heq|]; [|lia].
        rewrite <- Heq, Z.mod_same in Hnz by lia. done. }
      cbn [round_nearest_even].
      replace (P <? 2 * r) with true by (symmetry; apply Z.ltb_lt; lia).
      reflexivity.
  - replace (P <? 2 * r) with false by (symmetry; apply Z.ltb_ge; lia).
    replace (P =? 2 * r) with false by (symmetry; apply Z.eqb_neq; lia).
    cbn [orb andb]. rewrite Z.add_0_r.
    by destruct (negb _).
Qed.


Lemma dg_bounds (V : Z) : 0 < V -> 2 ^ (dg V - 1) <= V < 2 ^ dg V.
Proof.
  intros HV. unfold dg. replace (Z.log2 V + 1 - 1) with (Z.log2 V) by lia.
  apply (Z.log2_spec V HV).
Qed.

Lemma dg_positive (V : Z) : 0 < V -> 0 < dg V.
Proof. intros HV. unfold dg. pose proof (Z.log2_nonneg V). lia. Qed.

Lemma dg_pos (M : positive) : dg (Z.pos M) = Z.pos (digits2_pos M).
Proof.
  apply (digits_unique (Z.pos M)); [apply dg_bounds; lia | apply digits2_bounds | |lia].
  apply dg_positive. lia.
Qed.

Lemma dg_shift (V a : Z) : 0 < V -> 0 <= a -> dg (V * 2 ^ a) = dg V + a.
Proof. intros HV Ha. unfold dg. rewrite Z.log2_mul_pow2 by lia. lia. Qed.

Lemma dg_mono (V1 V2 : Z) : V1 <= V2 -> dg V1 <= dg V2.
Proof. intros H. unfold dg. pose proof (Z.log2_le_mono V1 V2 H). lia. Qed.

Lemma rnd_scale (m a k : Z) :
  0 <= a -> 0 <= k -> rnd (m * 2 ^ a) (a + k) = rnd m k.
Proof.
  intros Ha Hk. unfold rnd. rewrite Z.pow_add_r by lia.
  assert (0 < 2 ^ a) as HA by (apply Z.pow_pos_nonneg; lia).
  assert (0 < 2 ^ k) as HK by (apply Z.pow_pos_nonneg; lia).
  rewrite (Z.mul_comm (2 ^ a) (2 ^ k)).
  rewrite Z.div_mul_cancel_r by lia.
  rewrite Z.mul_mod_distr_r by lia.
  set (r := m mod 2 ^ k). set (q := m / 2 ^ k).
  replace (2 ^ k * 2 ^ a <? 2 * (r * 2 ^ a)) with (2 ^ k <? 2 * r).
  2:{ destruct (Z.ltb_spec (2 ^ k) (2 * r));
        [apply eq_sym, Z.ltb_lt | apply eq_sym, Z.ltb_ge]; nia. }
  replace (2 ^ k * 2 ^ a =? 2 * (r * 2 ^ a)) with (2 ^ k =? 2 * r).
  2:{ destruct (Z.eqb_spec (2 ^ k) (2 * r));
        [apply eq_sym, Z.eqb_eq | apply eq_sym, Z.eqb_neq]; nia. }
  reflexivity.
Qed.

Lemma rnd_exact (m a : Z) : 0 <= a -> rnd (m * 2 ^ a) a = m.
Proof.
  intros Ha. unfold rnd.
  assert (0 < 2 ^ a) as HA by (apply Z.pow_pos_nonneg; lia).
  rewrite Z.div_mul, Z.mod_mul by lia.
  replace (2 ^ a <? 2 * 0) with false by (symmetry; apply Z.ltb_ge; lia).
  replace (2 ^ a =? 2 * 0) with false by (symmetry; apply Z.eqb_neq; lia).
  cbn. lia.
Qed.

(** Where the rounded quotient lies, for a shift that leaves [prc]
    digits. *)
Lemma rnd_bounds (m k : Z) :
  0 < m -> 0 <= k -> dg m = prc + k ->
  2 ^ (prc - 1) <= m / 2 ^ k < 2 ^ prc
  /\ m / 2 ^ k <= rnd m k <= m / 2 ^ k + 1.
Proof.
  intros Hm Hk Hd. pose proof (dg_bounds m Hm) as [Hlo Hhi]. rewrite Hd in *.
  assert (0 < 2 ^ k) as HK by (apply Z.pow_pos_nonneg; lia).
  split.
  - split.
    + apply Z.div_le_lower_bound; [done|].
      rewrite <- Z.pow_add_r by lia. by replace (k + (prc - 1)) with (prc + k - 1) by lia.
    + apply Z.div_lt_upper_bound; [done|].
      rewrite <- Z.pow_add_r by lia. by rewrite Z.add_comm.
  - unfold rnd. destruct (_ || _); lia.
Qed.

Lemma shr_fexp_exact (m e : Z) :
  0 < m -> fxp prc emx (dg m + e) <= e ->
  shr_fexp prc emx m e loc_Exact
    = ({| shr_m := m; shr_r := false; shr_s := false |}, e).
Proof.
  intros Hm He. unfold shr_fexp. destruct m as [|p|]; try lia.
  cbn [Zdigits2 shr_record_of_loc]. rewrite <- dg_pos.
  unfold fxp in He. unfold shr.
  destruct (fexp prc emx (dg (Z.pos p) + e) - e) eqn:Hn; try reflexivity. lia.
Qed.

Lemma shr_fexp_shift (m e : Z) :
  0 < m -> e < fxp prc emx (dg m + e) ->
  shr_fexp prc emx m e loc_Exact
    = (Nat.iter (Z.to_nat (fxp prc emx (dg m + e) - e)) shr_1
         {| shr_m := m; shr_r := false; shr_s := false |},
       fxp prc emx (dg m + e)).
Proof.
  intros Hm He. unfold shr_fexp. destruct m as [|p|]; try lia.
  cbn [Zdigits2 shr_record_of_loc]. rewrite <- dg_pos.
  unfold fxp in *. unfold shr.
  destruct (fexp prc emx (dg (Z.pos p) + e) - e) as [|n|n] eqn:Hn; try lia.
  rewrite iter_pos_nat. f_equal. lia.
Qed.

Lemma binary_round_aux_exact (m e : Z) :
  0 < m -> fxp prc emx (dg m + e) <= e ->
  binary_round_aux prc emx false m e loc_Exact = pack prc emx m e.
Proof.
  intros Hm He. unfold binary_round_aux.
  rewrite shr_fexp_exact by done. cbn [shr_m loc_of_shr_record round_nearest_even].
  rewrite shr_fexp_exact by done. cbn [shr_m]. reflexivity.
Qed.


Lemma fxp_eq (x : Z) : fxp prc emx x = Z.max (x - prc) emn.
Proof. reflexivity. Qed.

Lemma dg_pow2 (k : Z) : 0 <= k -> dg (2 ^ k) = k + 1.
Proof. intros Hk. unfold dg. by rewrite Z.log2_pow2. Qed.

Lemma dg_of_bounds (x d : Z) : 0 < d -> 2 ^ (d - 1) <= x < 2 ^ d -> dg x = d.
Proof.
  intros Hd Hx.
  assert (0 < x) as Hpos.
  { assert (0 < 2 ^ (d - 1)) by (apply Z.pow_pos_nonneg; lia). lia. }
  apply (digits_unique x); [by apply dg_bounds | done | by apply dg_positive | done].
Qed.

Lemma binary_round_aux_shift (m e : Z) :
  0 < m -> emn <= e -> e < fxp prc emx (dg m + e) ->
  let E := fxp prc emx (dg m + e) in
  let q := rnd m (E - e) in
  binary_round_aux prc emx false m e loc_Exact
    = if q =? 2 ^ prc then pack prc emx (2 ^ (prc - 1)) (E + 1) else pack prc emx q E.
Proof.
  intros Hm He Hlt. cbn zeta. unfold binary_round_aux.
  rewrite shr_fexp_shift by done.
  assert (fxp prc emx (dg m + e) = dg m + e - prc) as HE by (rewrite fxp_eq in *; lia).
  set (E := fxp prc emx (dg m + e)) in *.
  rewrite round_shr by lia. rewrite Z2Nat.id by lia.
  destruct (rnd_bounds m (E - e) Hm ltac:(lia) ltac:(lia)) as [[Hlo Hhi] [Hq1 Hq2]].
  set (q := rnd m (E - e)) in *.
  assert (0 < 2 ^ (prc - 1)) as Hpow by (apply Z.pow_pos_nonneg; lia).
  destruct (Z.eqb_spec q (2 ^ prc)) as [Heq|Hne].
  - rewrite Heq. unfold shr_fexp.
    assert (0 < 2 ^ prc) as Hpow' by (apply Z.pow_pos_nonneg; lia).
    destruct (2 ^ prc) as [|P|] eqn:HP; try lia.
    cbn [Zdigits2 shr_record_of_loc]. rewrite <- dg_pos, <- HP.
    rewrite dg_pow2 by lia. fold (fxp prc emx (prc + 1 + E)).
    replace (fxp prc emx (prc + 1 + E) - E) with 1 by (rewrite fxp_eq; lia).
    cbn [shr iter_pos]. rewrite HP, shr_1_nonneg by lia. cbn [shr_m].
    rewrite <- HP. replace prc with (Z.succ (prc - 1)) at 1 by lia.
    rewrite Z.pow_succ_r by lia. rewrite Z.mul_comm, Z.div_mul by lia.
    reflexivity.
  - rewrite shr_fexp_exact; [reflexivity|lia|].
    rewrite (dg_of_bounds q prc); [rewrite fxp_eq; lia | lia | lia].
Qed.

Lemma shl_align_le (M : positive) (e E : Z) :
  E <= e ->
  exists mz, shl_align M e E = (mz, E) /\ Z.pos mz = Z.pos M * 2 ^ (e - E).
Proof.
  intros HE. unfold shl_align. destruct (E - e) as [|d|d] eqn:Hd; try lia.
  - exists M. replace (e - E) with 0 by lia. rewrite Z.pow_0_r.
    split; [f_equal|]; lia.
  - exists (Pos.iter xO M d). split; [done|].
    rewrite iter_xO_pos. f_equal. f_equal. lia.
Qed.

Lemma shl_align_gt (M : positive) (e E : Z) :
  e < E -> shl_align M e E = (M, e).
Proof.
  intros HE. unfold shl_align. destruct (E - e) as [|d|d] eqn:Hd; try lia. done.
Qed.

Lemma binary_round_RS (M : positive) (e : Z) :
  emn <= e ->
  binary_round prc emx false M e = RS prc emx (Z.pos M * 2 ^ (e - emn)).
Proof.
  intros He. unfold binary_round. rewrite <- dg_pos. fold (fxp prc emx (dg (Z.pos M) + e)).
  set (E := fxp prc emx (dg (Z.pos M) + e)).
  assert (E = Z.max (dg (Z.pos M) + e - prc) emn) as HE by reflexivity.
  unfold RS. set (V := Z.pos M * 2 ^ (e - emn)).
  assert (dg V = dg (Z.pos M) + (e - emn)) as HdV by (apply dg_shift; lia).
  assert (shiftn prc V = E - emn) as Hn by (unfold shiftn; lia).
  rewrite Hn. replace (emn + (E - emn)) with E by lia.
  destruct (Z.le_gt_cases E e) as [Hle|Hgt].
  - destruct (shl_align_le M e E Hle) as (mz & -> & Hmz).
    assert (dg (Z.pos mz) = dg (Z.pos M) + (e - E)) as Hdz.
    { rewrite Hmz. apply dg_shift; lia. }
    rewrite binary_round_aux_exact; [|lia|rewrite Hdz, fxp_eq; lia].
    assert (V = Z.pos mz * 2 ^ (E - emn)) as ->.
    { unfold V. rewrite Hmz, <- Z.mul_assoc, <- Z.pow_add_r by lia.
      f_equal. f_equal. lia. }
    rewrite rnd_exact by lia.
    pose proof (dg_bounds (Z.pos mz) ltac:(lia)) as [_ Hhi].
    assert (2 ^ dg (Z.pos mz) <= 2 ^ prc) by (apply Z.pow_le_mono_r; lia).
    destruct (Z.eqb_spec (Z.pos mz) (2 ^ prc)); [lia|reflexivity].
  - rewrite shl_align_gt by done.
    rewrite binary_round_aux_shift by (fold E; lia). fold E.
    unfold V. replace (E - emn) with ((e - emn) + (E - e)) by lia.
    rewrite rnd_scale by lia. reflexivity.
Qed.


Lemma RS_rpair (V : Z) : RS prc emx V = pack prc emx (fst (rpair prc emx V)) (snd (rpair prc emx V)).
Proof. unfold RS, rpair. by destruct (_ =? _). Qed.

Lemma shiftn_facts (V : Z) :
  0 < V ->
  let n := shiftn prc V in
  let q := V / 2 ^ n in
  0 <= n /\ 0 < 2 ^ n /\ q < 2 ^ prc /\ q <= rnd V n <= q + 1
  /\ (0 < n -> 2 ^ (prc - 1) <= q) /\ (n = 0 -> rnd V n = V).
Proof.
  intros HV. cbn zeta. unfold shiftn.
  pose proof (dg_bounds V HV) as [Hlo Hhi].
  pose proof (dg_positive V HV) as Hd.
  set (n := Z.max (dg V - prc) 0).
  assert (0 <= n) as Hn by lia.
  assert (0 < 2 ^ n) as HP by (apply Z.pow_pos_nonneg; lia).
  split; [done|]. split; [done|]. split.
  { apply Z.div_lt_upper_bound; [done|]. rewrite <- Z.pow_add_r by lia.
    assert (2 ^ dg V <= 2 ^ (n + prc)) by (apply Z.pow_le_mono_r; lia). lia. }
  split; [unfold rnd; destruct (_ || _); lia|]. split.
  - intros Hpos. apply (rnd_bounds V n HV Hn). lia.
  - intros ->. rewrite <- (Z.mul_1_r V) at 1. change 1 with (2 ^ 0) at 1.
    by apply rnd_exact.
Qed.

Lemma rpair_canon (V : Z) :
  0 < V -> canon prc emx (fst (rpair prc emx V)) (snd (rpair prc emx V)).
Proof.
  intros HV. unfold rpair, canon.
  destruct (shiftn_facts V HV) as (Hn & HP & Hq & Hr & Hlo & Hex).
  assert (0 < 2 ^ (prc - 1)) as Hpow by (apply Z.pow_pos_nonneg; lia).
  assert (2 ^ prc = 2 * 2 ^ (prc - 1)) as Hdouble.
  { rewrite <- Z.pow_succ_r by lia. f_equal. lia. }
  destruct (Z.eqb_spec (rnd V (shiftn prc V)) (2 ^ prc)) as [Heq|Hne]; cbn [fst snd].
  - lia.
  - destruct (Z.eq_dec (shiftn prc V) 0) as [H0|H0].
    + rewrite H0 in *. rewrite (Hex eq_refl) in *. lia.
    + specialize (Hlo ltac:(lia)). lia.
Qed.

Lemma rpair_val (V : Z) :
  0 < V -> val prc emx (fst (rpair prc emx V)) (snd (rpair prc emx V)) = rnd V (shiftn prc V) * 2 ^ shiftn prc V.
Proof.
  intros HV. unfold rpair, val.
  destruct (shiftn_facts V HV) as (Hn & HP & _).
  destruct (Z.eqb_spec (rnd V (shiftn prc V)) (2 ^ prc)) as [Heq|Hne]; cbn [fst snd].
  - rewrite Heq.
    assert (2 ^ (emn + shiftn prc V + 1 - emn) = 2 * 2 ^ shiftn prc V) as ->.
    { rewrite <- Z.pow_succ_r by lia. f_equal. lia. }
    assert (2 ^ prc = 2 * 2 ^ (prc - 1)) as ->.
    { rewrite <- Z.pow_succ_r by lia. f_equal. lia. }
    ring.
  - f_equal. f_equal. lia.
Qed.

(** Rounding is monotone. *)
Lemma rnd_mono (V1 V2 : Z) :
  0 < V1 -> V1 <= V2 ->
  rnd V1 (shiftn prc V1) * 2 ^ shiftn prc V1 <= rnd V2 (shiftn prc V2) * 2 ^ shiftn prc V2.
Proof.
  intros H1 H12. assert (0 < V2) as H2 by lia.
  destruct (shiftn_facts V1 H1) as (Hn1 & HP1 & Hq1 & Hr1 & _ & _).
  destruct (shiftn_facts V2 H2) as (Hn2 & HP2 & Hq2 & Hr2 & Hlo2 & _).
  assert (shiftn prc V1 <= shiftn prc V2) as Hn.
  { unfold shiftn. pose proof (dg_mono V1 V2 H12). lia. }
  destruct (Z.eq_dec (shiftn prc V1) (shiftn prc V2)) as [Heq|Hne].
  - rewrite Heq in *. set (n := shiftn prc V2) in *.
    apply Z.mul_le_mono_nonneg_r; [lia|].
    pose proof (Z.div_le_mono V1 V2 (2 ^ n) HP2 H12) as Hq.
    destruct (Z.eq_dec (V1 / 2 ^ n) (V2 / 2 ^ n)) as [Hqe|Hqn]; [|lia].
    pose proof (Z.div_mod V1 (2 ^ n) ltac:(lia)) as Hd1.
    pose proof (Z.div_mod V2 (2 ^ n) ltac:(lia)) as Hd2.
    unfold rnd. rewrite Hqe in *.
    set (r1 := V1 mod 2 ^ n) in *. set (r2 := V2 mod 2 ^ n) in *.
    assert (r1 <= r2) as Hr by lia.
    apply Z.add_le_mono_l.
    destruct (Z.ltb_spec (2 ^ n) (2 * r1)), (Z.ltb_spec (2 ^ n) (2 * r2)),
      (Z.eqb_spec (2 ^ n) (2 * r1)), (Z.eqb_spec (2 ^ n) (2 * r2));
      cbn [orb andb]; try lia; destruct (Z.odd _); lia.
  - specialize (Hlo2 ltac:(lia)).
    assert (2 ^ prc * 2 ^ shiftn prc V1 <= 2 ^ (prc - 1) * 2 ^ shiftn prc V2) as Hpow.
    { rewrite <- !Z.pow_add_r by lia. apply Z.pow_le_mono_r; lia. }
    assert (0 < 2 ^ (prc - 1)) by (apply Z.pow_pos_nonneg; lia).
    nia.
Qed.

(** Among canonical pairs the exponent decides the order of the
    values. *)
Lemma canon_lt (m1 e1 m2 e2 : Z) :
  canon prc emx m1 e1 -> canon prc emx m2 e2 -> e1 < e2 -> val prc emx m1 e1 < val prc emx m2 e2.
Proof.
  intros (Hm1 & He1 & _) (Hm2 & He2 & Hn2) Hlt. unfold val.
  destruct Hn2 as [->|Hn2]; [lia|].
  assert (0 < 2 ^ (e1 - emn)) as HP by (apply Z.pow_pos_nonneg; lia).
  assert (2 ^ prc * 2 ^ (e1 - emn) <= 2 ^ (prc - 1) * 2 ^ (e2 - emn)) as Hpow.
  { rewrite <- !Z.pow_add_r by lia. apply Z.pow_le_mono_r; lia. }
  assert (0 < 2 ^ (e2 - emn)) by (apply Z.pow_pos_nonneg; lia).
  nia.
Qed.

Lemma val_pos (m e : Z) : canon prc emx m e -> 0 < val prc emx m e.
Proof.
  intros (Hm & He & _). unfold val.
  assert (0 < 2 ^ (e - emn)) by (apply Z.pow_pos_nonneg; lia). nia.
Qed.


Lemma SFleb_NN (x y : spec_float) :
  NN prc emx x -> NN prc emx y -> (SFleb x y = true <-> ext_le (fv prc emx x) (fv prc emx y)).
Proof.
  unfold SFleb.
  destruct x as [[]|[]| |[] m1 e1], y as [[]|[]| |[] m2 e2]; cbn; try tauto;
    try (intros _ _; split; [done | discriminate || tauto]).
  - intros _ [Hc _]. pose proof (val_pos _ _ Hc). split; [lia|done].
  - intros [Hc _] _. pose proof (val_pos _ _ Hc). split; [done|lia].
  - intros [Hc1 _] [Hc2 _].
    destruct (Z.compare_spec e1 e2) as [->|Hlt|Hgt].
    + rewrite Pos.compare_cont_spec. cbn [Pos.switch_Eq].
      unfold val. assert (0 < 2 ^ (e2 - emn)) as HP.
      { destruct Hc2 as (_ & ? & _). apply Z.pow_pos_nonneg; lia. }
      destruct (Pos.compare_spec m1 m2) as [->|Hm|Hm];
        try apply Pos2Z.pos_lt_pos in Hm; split; try done; intros; nia.
    + pose proof (canon_lt _ _ _ _ Hc1 Hc2 Hlt). split; [lia|done].
    + pose proof (canon_lt _ _ _ _ Hc2 Hc1 Hgt). split; [done|lia].
Qed.

Lemma pack_canon (m e : Z) :
  canon prc emx m e ->
  NN prc emx (pack prc emx m e)
  /\ fv prc emx (pack prc emx m e) = if e <=? emx - prc then Some (val prc emx m e) else None.
Proof.
  intros Hc. pose proof Hc as (Hm & _). unfold pack.
  destruct m as [|p|]; try lia.
  destruct (Z.leb_spec e (emx - prc)); cbn; auto.
Qed.

Lemma RSz_NN (V : Z) : 0 <= V -> NN prc emx (RSz prc emx V).
Proof.
  intros HV. unfold RSz. destruct (Z.eqb_spec V 0); [done|].
  rewrite RS_rpair. apply pack_canon, rpair_canon. lia.
Qed.

Lemma RSz_mono (V1 V2 : Z) :
  0 <= V1 -> V1 <= V2 -> ext_le (fv prc emx (RSz prc emx V1)) (fv prc emx (RSz prc emx V2)).
Proof.
  intros H1 H12. unfold RSz.
  destruct (Z.eqb_spec V1 0) as [->|Hn1], (Z.eqb_spec V2 0) as [->|Hn2];
    try lia; try (cbn; lia).
  - rewrite RS_rpair.
    destruct (pack_canon _ _ (rpair_canon V2 ltac:(lia))) as [_ ->].
    pose proof (val_pos _ _ (rpair_canon V2 ltac:(lia))).
    destruct (_ <=? _); cbn; lia.
  - rewrite !RS_rpair.
    pose proof (rpair_canon V1 ltac:(lia)) as Hc1.
    pose proof (rpair_canon V2 ltac:(lia)) as Hc2.
    destruct (pack_canon _ _ Hc1) as [_ ->], (pack_canon _ _ Hc2) as [_ ->].
    pose proof (rnd_mono V1 V2 ltac:(lia) H12) as Hmono.
    rewrite <- !rpair_val in Hmono by lia.
    destruct (Z.leb_spec (snd (rpair prc emx V2)) (emx - prc)) as [Hle2|Hgt2];
      destruct (Z.leb_spec (snd (rpair prc emx V1)) (emx - prc)) as [Hle1|Hgt1];
      cbn; try done.
    assert (snd (rpair prc emx V2) < snd (rpair prc emx V1)) as Hlt by lia.
    pose proof (canon_lt _ _ _ _ Hc2 Hc1 Hlt). lia.
Qed.

(** A number that is representable rounds to itself. *)
Lemma RSz_fv (x : spec_float) (u : Z) :
  NN prc emx x -> fv prc emx x = Some u -> RSz prc emx u = x.
Proof.
  destruct x as [[]|[]| |[] m e]; cbn; try done.
  { intros _ [= <-]. reflexivity. }
  intros [Hc He] [= <-]. pose proof (val_pos _ _ Hc) as Hpos.
  unfold RSz. destruct (Z.eqb_spec (val prc emx (Z.pos m) e) 0); [lia|].
  destruct Hc as (Hm & Hemn & Hnorm). unfold RS, val in *.
  assert (dg (Z.pos m * 2 ^ (e - emn)) = dg (Z.pos m) + (e - emn)) as Hd
    by (apply dg_shift; lia).
  pose proof (dg_bounds (Z.pos m) ltac:(lia)) as [Hlo Hhi].
  assert (dg (Z.pos m) <= prc) as Hdle.
  { destruct (Z.le_gt_cases (dg (Z.pos m)) prc) as [|Hgt]; [done|].
    assert (2 ^ prc <= 2 ^ (dg (Z.pos m) - 1)) by (apply Z.pow_le_mono_r; lia). lia. }
  assert (shiftn prc (Z.pos m * 2 ^ (e - emn)) = e - emn) as ->.
  { unfold shiftn. rewrite Hd. destruct Hnorm as [->|Hnorm]; [lia|].
    assert (prc <= dg (Z.pos m)); [|lia].
    destruct (Z.le_gt_cases prc (dg (Z.pos m))) as [|Hgt]; [done|].
    assert (2 ^ dg (Z.pos m) <= 2 ^ (prc - 1)) by (apply Z.pow_le_mono_r; lia). lia. }
  rewrite rnd_exact by lia.
  destruct (Z.eqb_spec (Z.pos m) (2 ^ prc)); [lia|].
  replace (emn + (e - emn)) with e by lia. cbn [pack].
  by destruct (Z.leb_spec e (emx - prc)); [|lia].
Qed.

(** Addition of non-negative numbers is the rounding of the exact sum. *)
Lemma SFadd_NN (x y : spec_float) :
  NN prc emx x -> NN prc emx y ->
  SFadd prc emx x y =
    match fv prc emx x, fv prc emx y with
    | Some u, Some v => RSz prc emx (u + v)
    | _, _ => S754_infinity false
    end.
Proof.
  intros Hx Hy.
  destruct x as [[]|[]| |[] m1 e1] eqn:Ex; try done;
    destruct y as [[]|[]| |[] m2 e2] eqn:Ey; try done.
  - cbn [fv SFadd]. rewrite Z.add_0_l.
    rewrite (RSz_fv (S754_finite false m2 e2) _ Hy eq_refl). done.
  - cbn [fv SFadd]. rewrite Z.add_0_r.
    rewrite (RSz_fv (S754_finite false m1 e1) _ Hx eq_refl). done.
  - cbn [fv SFadd cond_Zopp].
    destruct Hx as [(Hm1 & He1 & _) _], Hy as [(Hm2 & He2 & _) _].
    set (ez := Z.min e1 e2).
    destruct (shl_align_le m1 e1 ez ltac:(lia)) as (z1 & -> & Hz1).
    destruct (shl_align_le m2 e2 ez ltac:(lia)) as (z2 & -> & Hz2).
    cbn [fst]. rewrite <- Pos2Z.inj_add. cbn [binary_normalize].
    rewrite binary_round_RS by lia.
    rewrite Pos2Z.inj_add, Hz1, Hz2. unfold RSz, val.
    assert (0 < 2 ^ (e1 - emn)) by (apply Z.pow_pos_nonneg; lia).
    assert (0 < 2 ^ (e2 - emn)) by (apply Z.pow_pos_nonneg; lia).
    destruct (Z.eqb_spec (Z.pos m1 * 2 ^ (e1 - emn) + Z.pos m2 * 2 ^ (e2 - emn)) 0);
      [nia|].
    f_equal. rewrite Z.mul_add_distr_r, <- !Z.mul_assoc, <- !Z.pow_add_r by lia.
    f_equal; f_equal; f_equal; lia.
Qed.

Lemma SFadd_NN_closed (x y : spec_float) :
  NN prc emx x -> NN prc emx y -> NN prc emx (SFadd prc emx x y).
Proof.
  intros Hx Hy. rewrite SFadd_NN by done.
  destruct (fv prc emx x) as [u|] eqn:Hu, (fv prc emx y) as [v|] eqn:Hv; try done.
  apply RSz_NN.
  assert (forall z w, NN prc emx z -> fv prc emx z = Some w -> 0 <= w) as Hnn.
  { intros [[]|[]| |[] m e] w; cbn; try done.
    - intros _ [= <-]. lia.
    - intros [Hc _] [= <-]. pose proof (val_pos _ _ Hc). lia. }
  pose proof (Hnn x u Hx Hu). pose proof (Hnn y v Hy Hv). lia.
Qed.

(** Addition of non-negative numbers is monotone in both arguments. *)
Lemma SFadd_mono (a b c d : spec_float) :
  NN prc emx a -> NN prc emx b -> NN prc emx c -> NN prc emx d ->
  SFleb a b = true -> SFleb c d = true ->
  SFleb (SFadd prc emx a c) (SFadd prc emx b d) = true.
Proof.
  intros Ha Hb Hc Hd Hab Hcd.
  apply SFleb_NN; [by apply SFadd_NN_closed | by apply SFadd_NN_closed|].
  apply SFleb_NN in Hab; [|done..]. apply SFleb_NN in Hcd; [|done..].
  rewrite !SFadd_NN by done.
  assert (forall z w, NN prc emx z -> fv prc emx z = Some w -> 0 <= w) as Hnn.
  { intros [[]|[]| |[] m e] w; cbn; try done.
    - intros _ [= <-]. lia.
    - intros [Hc' _] [= <-]. pose proof (val_pos _ _ Hc'). lia. }
  assert (forall o, ext_le o None) as Htop by (by intros []).
  destruct (fv prc emx b) as [vb|] eqn:Hvb, (fv prc emx d) as [vd|] eqn:Hvd;
    try (cbn [fv]; apply Htop).
  destruct (fv prc emx a) as [va|] eqn:Hva; [|done].
  destruct (fv prc emx c) as [vc|] eqn:Hvc; [|done].
  cbn in Hab, Hcd.
  pose proof (Hnn a va Ha Hva). pose proof (Hnn c vc Hc Hvc).
  apply RSz_mono; lia.
Qed.


Lemma bounded_canon (m : positive) (e : Z) :
  bounded prc emx m e = true -> canon prc emx (Z.pos m) e /\ e <= emx - prc.
Proof.
  unfold bounded, canonical_mantissa. intros [Hc He]%andb_prop.
  apply Z.eqb_eq in Hc. apply Z.leb_le in He. split; [|done].
  rewrite <- dg_pos in Hc. fold (fxp prc emx (dg (Z.pos m) + e)) in Hc. rewrite fxp_eq in Hc.
  pose proof (dg_bounds (Z.pos m) ltac:(lia)) as [Hlo Hhi].
  assert (2 ^ dg (Z.pos m) <= 2 ^ prc) by (apply Z.pow_le_mono_r; lia).
  unfold canon. split; [lia|]. split; [lia|].
  destruct (Z.eq_dec e emn) as [|Hne]; [by left|right].
  replace (prc - 1) with (dg (Z.pos m) - 1) by lia. done.
Qed.

Lemma NN_zero_le (x : spec_float) :
  SpecFloat.valid_binary prc emx x = true ->
  SFleb (S754_zero false) x = true ->
  SFeqb x (S754_zero false) = false ->
  NN prc emx x.
Proof.
  unfold SFleb, SFeqb.
  destruct x as [s|[]| |[] m e]; cbn; try done.
  intros Hb _ _. by apply bounded_canon.
Qed.

Lemma SFleb_trans (x y z : spec_float) :
  NN prc emx x -> NN prc emx y -> NN prc emx z ->
  SFleb x y = true -> SFleb y z = true -> SFleb x z = true.
Proof.
  intros Hx Hy Hz Hxy Hyz.
  apply SFleb_NN in Hxy; [|done..]. apply SFleb_NN in Hyz; [|done..].
  apply SFleb_NN; [done..|].
  destruct (fv prc emx x), (fv prc emx y), (fv prc emx z); cbn in *; try done. lia.
Qed.

Lemma SFleb_refl (x : spec_float) : NN prc emx x -> SFleb x x = true.
Proof.
  intros Hx. apply SFleb_NN; [done..|]. destruct (fv prc emx x); cbn; [lia|done].
Qed.

Lemma SFadd_zero_r (x : spec_float) :
  NN prc emx x -> SFadd prc emx x (S754_zero false) = x.
Proof. by destruct x as [[]|[]| |[] m e]. Qed.

End Rounding.

Lemma prec_pos : 0 < prec.
Proof. reflexivity. Qed.

Lemma nonneg_zero : nonneg 0.
Proof. exact I. Qed.

Lemma nonneg_of_leb (x : float) :
  (0 <=? x)%float = true -> (x =? 0)%float = false -> nonneg x.
Proof.
  rewrite leb_spec, eqb_spec. intros Hle Hne.
  apply (NN_zero_le prec emax prec_pos); [apply Prim2SF_valid|done..].
Qed.

Lemma add_nonneg (x y : float) : nonneg x -> nonneg y -> nonneg (x + y).
Proof.
  intros Hx Hy. unfold nonneg. rewrite add_spec.
  by apply (SFadd_NN_closed prec emax prec_pos).
Qed.

Lemma add_mono (a b c d : float) :
  nonneg a -> nonneg b -> nonneg c -> nonneg d ->
  (a <=? b)%float = true -> (c <=? d)%float = true ->
  (a + c <=? b + d)%float = true.
Proof.
  rewrite !leb_spec, !add_spec. apply (SFadd_mono prec emax prec_pos).
Qed.

Lemma add_zero_r (x : float) : nonneg x -> (x + 0)%float = x.
Proof.
  intros Hx. apply Prim2SF_inj. rewrite add_spec.
  by apply (SFadd_zero_r prec emax).
Qed.

Lemma leb_trans (x y z : float) :
  nonneg x -> nonneg y -> nonneg z ->
  (x <=? y)%float = true -> (y <=? z)%float = true -> (x <=? z)%float = true.
Proof. rewrite !leb_spec. apply (SFleb_trans prec emax prec_pos). Qed.

Lemma leb_refl (x : float) : nonneg x -> (x <=? x)%float = true.
Proof. rewrite leb_spec. apply (SFleb_refl prec emax prec_pos). Qed.

(** *** Completed and total points *)

Lemma storyPoints_nonneg (i : Issue) :
  (0 <=? storyPoints i)%float = true -> nonneg (storyPoints i).
Proof.
  unfold storyPoints. destruct (customfield_10016 i) as [x|]; [|intros; exact I].
  unfold JS.or_else, JS.truthy, is_zero.
  destruct (x =? zero)%float eqn:Hz; cbn [orb negb]; [intros; exact I|].
  destruct (is_nan x); cbn [negb]; [intros; exact I|].
  intros Hle. by apply nonneg_of_leb.
Qed.

Lemma loop_completed_le_total (issues : list Issue) :
  Forall (fun i => (0 <=? storyPoints i)%float = true) issues ->
  nonneg (completedPoints (loop issues))
  /\ nonneg (totalPoints (loop issues))
  /\ (completedPoints (loop issues) <=? totalPoints (loop issues))%float = true.
Proof.
  induction issues as [|i l IH] using rev_ind; intros Hall.
  { repeat split. }
  apply Forall_app in Hall as [Hl Hi]. rewrite Forall_singleton in Hi.
  destruct (IH Hl) as (Hc & Ht & Hle).
  pose proof (storyPoints_nonneg i Hi) as Hp.
  rewrite loop_snoc. cbn [step completedPoints totalPoints].
  split; [destruct (includes _ _); [by apply add_nonneg|done]|].
  split; [by apply add_nonneg|].
  destruct (includes doneStatuses (status i)).
  - apply add_mono; try done. by apply leb_refl.
  - assert ((totalPoints (loop l) <=? totalPoints (loop l) + storyPoints i)%float
            = true) as Hgrow.
    { rewrite <- (add_zero_r (totalPoints (loop l))) at 1 by done.
      apply add_mono; try done. by apply leb_refl. }
    pose proof (add_nonneg _ _ Ht Hp) as Ht'.
    exact (leb_trans _ _ _ Hc Ht Ht' Hle Hgrow).
Qed.

(** C9: when the story points of every issue ([customfield_10016 || 0])
    are non-negative, the completed points of the aggregate do not exceed
    its total points, both sums being the double-precision sums the loop
    computes. *)
Theorem completed_le_total (issues : list Issue) :
  Forall (fun i => (0 <=? storyPoints i)%float = true) issues ->
  let p := snd (aggregate issues) in
  (p_completedPoints p <=? p_totalPoints p)%float = true.
Proof. intros Hall. by apply loop_completed_le_total. Qed.

Lemma completed_le_total_sample :
  let p := snd (aggregate issues_5_of_8) in
  (p_completedPoints p <=? p_totalPoints p)%float = true.
Proof.
  apply (completed_le_total issues_5_of_8).
  repeat constructor.
Defined.

(** * Further properties of the resolver *)

(** With a sprint in the reply to the active query, [getActiveSprint]
    returns the first sprint of that reply and stops: the unfiltered query
    is not made. *)
Theorem active_sprint_first
    (client : Client) (config : Config) (boardId : option Z)
    (t1 : list call) (b : Z) (s : Sprint) (rest : list Sprint) :
  targetBoard client config boardId [] = (t1, Ok b) ->
  doRequest client b true = Ok (Values (s :: rest)) ->
  run (getActiveSprint client config boardId)
    = (t1 ++ [BoardSprints b true], Ok s).
Proof.
  intros Htb Hact. unfold run.
  by rewrite getActiveSprint_unfold, Htb, selectSprint_unfold, Hact.
Qed.

Lemma active_sprint_first_sample :
  run (getActiveSprint active_client sample_config None)
    = ([BoardsForProject "ACME"] ++ [BoardSprints 7 true],
       Ok (sprint_at 12 (Some mar_2024))).
Proof.
  apply (active_sprint_first active_client sample_config None
           [BoardsForProject "ACME"] 7 _ [sprint_at 11 (Some jan_2024)]);
    reflexivity.
Defined.

(** A non-zero [boardId] argument decides the board: whatever the
    configured default, the project's boards are not listed and every
    request is a sprint query on that board. *)
Theorem explicit_board_wins
    (client : Client) (config : Config) (b : Z) :
  b <> 0 ->
  targetBoard client config (Some b) [] = ([], Ok b)
  /\ Forall (fun c => exists act, c = BoardSprints b act)
       (fst (run (getActiveSprint client config (Some b)))).
Proof.
  intros Hb.
  assert (targetBoard client config (Some b) [] = ([], Ok b)) as Htb.
  { unfold targetBoard, or_opt, falsy.
    destruct (Z.eqb_spec b 0); [done|]. by destruct (Z.eqb_spec b 0). }
  split; [done|].
  unfold run. rewrite getActiveSprint_unfold, Htb.
  pose proof (selectSprint_trace client b []) as Hs.
  destruct (selectSprint client b []) as [t2 [s|e]]; cbn [fst] in *.
  all: destruct Hs as [-> | ->]; repeat constructor; eauto.
Qed.

Lemma explicit_board_wins_sample :
  targetBoard sample_client {| projectKey := "ACME"; defaultBoardId := Some 3 |}
    (Some 9) [] = ([], Ok 9)
  /\ Forall (fun c => exists act, c = BoardSprints 9 act)
       (fst (run (getActiveSprint sample_client
                    {| projectKey := "ACME"; defaultBoardId := Some 3 |} (Some 9)))).
Proof.
  apply (explicit_board_wins sample_client
           {| projectKey := "ACME"; defaultBoardId := Some 3 |} 9).
  discriminate.
Defined.

(** Without a [boardId] argument (or with 0) the configured default board
    is used when it is a non-zero number; the project's boards are listed
    only when neither is usable. *)
Theorem default_board_used
    (client : Client) (config : Config) (boardId : option Z) (d : Z) :
  falsy boardId = true ->
  defaultBoardId config = Some d ->
  d <> 0 ->
  targetBoard client config boardId [] = ([], Ok d)
  /\ ~ In (BoardsForProject (projectKey config))
         (fst (run (getActiveSprint client config boardId))).
Proof.
  intros Hf Hd Hne.
  assert (targetBoard client config boardId [] = ([], Ok d)) as Htb.
  { unfold targetBoard, or_opt. rewrite Hf, Hd. by destruct (Z.eqb_spec d 0). }
  split; [done|].
  unfold run. rewrite getActiveSprint_unfold, Htb.
  pose proof (selectSprint_trace client d []) as Hs.
  destruct (selectSprint client d []) as [t2 [s|e]]; cbn [fst] in *.
  all: destruct Hs as [-> | ->]; cbn; intuition discriminate.
Qed.

Lemma default_board_used_sample :
  targetBoard sample_client {| projectKey := "ACME"; defaultBoardId := Some 3 |}
    (Some 0) [] = ([], Ok 3)
  /\ ~ In (BoardsForProject "ACME")
         (fst (run (getActiveSprint sample_client
                      {| projectKey := "ACME"; defaultBoardId := Some 3 |} (Some 0)))).
Proof.
  apply (default_board_used sample_client
           {| projectKey := "ACME"; defaultBoardId := Some 3 |} (Some 0) 3);
    [reflexivity | reflexivity | discriminate].
Defined.

(** When no board id is usable and the board listing yields no board
    (an empty list, a falsy reply, a reply without [values], or a
    rejection), resolution fails with a message that names the project,
    and no sprint query is made. *)
Theorem no_board_for_project
    (client : Client) (config : Config) (boardId : option Z) :
  falsy (or_opt boardId (defaultBoardId config)) = true ->
  (forall b rest,
     getBoardsForProject client (projectKey config) <> Ok (Values (b :: rest))) ->
  run (getActiveSprint client config boardId)
    = ([BoardsForProject (projectKey config)],
       Throw (JsError ("Não foi possível encontrar a sprint ativa: "
                       +:+ "Não foi possível encontrar um board para o projeto "
                       +:+ projectKey config
                       +:+ ". Por favor, forneça um Board ID."))).
Proof.
  intros Hf Hnone. unfold run. rewrite getActiveSprint_unfold.
  assert (targetBoard client config boardId [] = discoverBoard client config [])
    as ->.
  { unfold targetBoard.
    destruct (or_opt boardId (defaultBoardId config)) as [d|]; [|done].
    cbn in Hf. by rewrite Hf. }
  rewrite discoverBoard_unfold.
  destruct (getBoardsForProject client (projectKey config))
    as [[| |[|b rest]]|e]; try reflexivity.
  by destruct (Hnone b rest).
Qed.

Lemma no_board_for_project_sample :
  run (getActiveSprint empty_client sample_config None)
    = ([BoardsForProject "ACME"],
       Throw (JsError "Não foi possível encontrar a sprint ativa: Não foi possível encontrar um board para o projeto ACME. Por favor, forneça um Board ID.")).
Proof.
  apply (no_board_for_project empty_client sample_config None);
    [reflexivity | discriminate].
Defined.

(** When neither sprint query yields a sprint, resolution fails with a
    message that names the board that was queried. *)
Theorem no_sprints_for_board
    (client : Client) (config : Config) (boardId : option Z)
    (t1 : list call) (b : Z) (r r' : reply Sprint) :
  targetBoard client config boardId [] = (t1, Ok b) ->
  doRequest client b true = Ok r -> has_sprint r = false ->
  doRequest client b false = Ok r' -> has_sprint r' = false ->
  run (getActiveSprint client config boardId)
    = (t1 ++ [BoardSprints b true; BoardSprints b false],
       Throw (JsError ("Não foi possível encontrar a sprint ativa: "
                       +:+ "Erro ao buscar sprint ativa: "
                       +:+ "Não foram encontradas sprints para o quadro "
                       +:+ pretty b))).
Proof.
  intros Htb Hact Hr Hall Hr'. unfold run.
  rewrite getActiveSprint_unfold, Htb, selectSprint_unfold, Hact, Hr, Hall.
  rewrite <- app_assoc. by destruct r' as [| |[|s l]].
Qed.

Lemma no_sprints_for_board_sample :
  run (getActiveSprint empty_client sample_config (Some 5))
    = ([] ++ [BoardSprints 5 true; BoardSprints 5 false],
       Throw (JsError "Não foi possível encontrar a sprint ativa: Erro ao buscar sprint ativa: Não foram encontradas sprints para o quadro 5")).
Proof.
  apply (no_sprints_for_board empty_client sample_config (Some 5) [] 5
           (Values []) (Values [])); reflexivity.
Defined.

(** [getActiveSprint] never repeats a request: it lists the project's
    boards at most once, then queries the active sprints of one board, then
    at most once all sprints of the same board. *)
Theorem getActiveSprint_requests
    (client : Client) (config : Config) (boardId : option Z) :
  let t := fst (run (getActiveSprint client config boardId)) in
  NoDup t
  /\ (length t <= 3)%nat
  /\ exists pre,
       (pre = [] \/ pre = [BoardsForProject (projectKey config)])
       /\ (t = pre
           \/ exists b, t = pre ++ [BoardSprints b true]
                        \/ t = pre ++ [BoardSprints b true; BoardSprints b false]).
Proof.
  cbn zeta. unfold run. rewrite getActiveSprint_unfold.
  pose proof (targetBoard_trace client config boardId []) as Ht.
  destruct (targetBoard client config boardId []) as [t1 [b|e]]; cbn [fst] in Ht.
  - pose proof (selectSprint_trace client b t1) as Hs.
    assert (fst (let (t2, r) := selectSprint client b t1 in
                 match r with
                 | Ok s => (t2, Ok s)
                 | Throw e => (t2, Throw (wrap_outer e))
                 end) = fst (selectSprint client b t1)) as ->.
    { by destruct (selectSprint client b t1) as [t2 [s|e]]. }
    destruct Ht as [-> | ->], Hs as [-> | ->]; cbn [app length].
    all: split; [distinct_requests|].
    all: split; [lia|].
    + exists []. split; [by left|]. right. exists b. by left.
    + exists []. split; [by left|]. right. exists b. by right.
    + exists [BoardsForProject (projectKey config)]. split; [by right|].
      right. exists b. by left.
    + exists [BoardsForProject (projectKey config)]. split; [by right|].
      right. exists b. by right.
  - cbn [fst]. destruct Ht as [-> | ->]; cbn [app length].
    all: split; [distinct_requests|].
    all: split; [lia|].
    + exists []. split; [by left|]. by left.
    + exists [BoardsForProject (projectKey config)]. split; [by right|]. by left.
Qed.

(** ** The fallback sort as a whole *)

Lemma insert_perm {A} (comparefn : A -> A -> Z) (p : A) (l : list A) :
  insert comparefn p l ≡ₚ p :: l.
Proof.
  induction l as [|x l IH]; cbn; [done|].
  destruct (comparefn p x <? 0); [done|].
  rewrite IH. apply Permutation_swap.
Qed.

Lemma Array_sort_perm {A} (comparefn : A -> A -> Z) (l : list A) :
  Array_sort comparefn l ≡ₚ l.
Proof.
  induction l as [|x l IH] using rev_ind; [done|].
  rewrite Array_sort_snoc, insert_perm, IH. apply Permutation_cons_append.
Qed.

Lemma not_smaller_not_after (a b : Sprint) :
  (compareSprints b a <? 0) = false -> not_after a b.
Proof.
  intros Hc tb Hb.
  destruct (startDate a) as [ta|] eqn:Ha.
  - exists ta. split; [done|].
    destruct (Z.le_gt_cases tb ta) as [|Hlt]; [done|].
    assert ((compareSprints b a <? 0) = true) as Hc'; [|congruence].
    apply compareSprints_lt. exists tb. by rewrite Ha.
  - assert ((compareSprints b a <? 0) = true) as Hc'; [|congruence].
    apply compareSprints_lt. exists tb. by rewrite Ha.
Qed.

(** The fallback sort rearranges the sprints it is given, none lost and
    none added, so that no sprint starts after a sprint placed before it:
    start dates do not increase along the result and the undated sprints
    come last. *)
Theorem fallback_sort_sorted (l : list Sprint) :
  Array_sort compareSprints l ≡ₚ l
  /\ StronglySorted not_after (Array_sort compareSprints l).
Proof.
  split; [apply Array_sort_perm|].
  pose proof (Array_sort_ordered compareSprints compareSprints_asym
                compareSprints_trans l) as Hord.
  unfold ordered in Hord.
  induction Hord as [|a rest Hrest IH Ha]; constructor; [done|].
  eapply List.Forall_impl; [|exact Ha].
  intros b Hb. by apply not_smaller_not_after.
Qed.

Lemma starting_at_true (k : option Z) (s : Sprint) :
  starting_at k s = true <-> startDate s = k.
Proof. unfold starting_at. by rewrite bool_decide_eq_true. Qed.

Lemma filter_none {A} (f : A -> bool) (l : list A) :
  (forall y, In y l -> f y = false) -> List.filter f l = [].
Proof.
  induction l as [|x l IH]; cbn; intros H; [done|].
  rewrite (H x) by auto. apply IH. auto.
Qed.

(** A sprint enters the sorted list behind the sprints that start when it
    does. *)
Lemma insert_same_start (k : option Z) (p : Sprint) (l : list Sprint) :
  ordered compareSprints l ->
  starting_at k p = true ->
  List.filter (starting_at k) (insert compareSprints p l)
    = List.filter (starting_at k) l ++ [p].
Proof.
  intros Hord Hp. unfold ordered in Hord.
  induction Hord as [|x rest Hrest IH Hx]; cbn [insert].
  { cbn. by rewrite Hp. }
  destruct (compareSprints p x <? 0) eqn:Hpx.
  - assert (List.filter (starting_at k) (x :: rest) = []) as Hnone.
    { apply filter_none.
      apply compareSprints_lt in Hpx as (tp & Hdate & Hlt).
      pose proof Hp as Hp'. apply starting_at_true in Hp'.
      rewrite Hdate in Hp'. subst k.
      intros y Hy. apply not_true_iff_false. intros Hk%starting_at_true.
      destruct Hy as [<- | Hy]; [rewrite Hk in Hlt; lia|].
      rewrite List.Forall_forall in Hx. specialize (Hx y Hy).
      assert ((compareSprints y x <? 0) = true) as Hc; [|congruence].
      apply compareSprints_lt. exists tp. split; [done|].
      by destruct (startDate x). }
    rewrite Hnone. change (p :: x :: rest) with ([p] ++ x :: rest).
    rewrite List.filter_app, Hnone. cbn. by rewrite Hp.
  - cbn [List.filter]. rewrite IH. by destruct (starting_at k x).
Qed.

(** The fallback sort is stable: the sprints that share a start date, and
    likewise the undated sprints, come out in the order they came in. *)
Theorem fallback_sort_stable (k : option Z) (l : list Sprint) :
  List.filter (starting_at k) (Array_sort compareSprints l)
    = List.filter (starting_at k) l.
Proof.
  induction l as [|p l IH] using rev_ind; [done|].
  rewrite Array_sort_snoc, List.filter_app. cbn [List.filter].
  destruct (starting_at k p) eqn:Hp.
  - rewrite insert_same_start, IH; [done| |done].
    apply (Array_sort_ordered compareSprints compareSprints_asym
             compareSprints_trans).
  - by rewrite insert_filter, IH, app_nil_r.
Qed.

(** * Further properties of the issue queries and of the details *)


Lemma includes_space_spec (s : string) :
  includes_space s = true <-> exists a b, s = a +:+ " " +:+ b.
Proof.
  induction s as [|c s IH]; cbn.
  - split; [done|]. intros ([|? ?] & b & H); discriminate.
  - destruct (Ascii.eqb_spec c " "%char) as [->|Hc].
    + split; [|done]. intros _. by exists ""%string, s.
    + rewrite IH. split.
      * intros (a & b & ->). by exists (String c a), b.
      * intros ([|c' a] & b & H); cbn in H; injection H as H1 H2; [done|].
        by exists a, b.
Qed.

(** [getUserTasks] never raises either: one search, whose JQL carries the
    user name between double quotes exactly when the name contains a space,
    and the issues of the reply or the empty list. *)
Theorem getUserTasks_total (client : Client) (userName : string) (sprintId : Z) :
  run (getUserTasks client userName sprintId)
    = ([SearchJira (userTasksJql userName sprintId)],
       Ok (issues_of (searchJira client (userTasksJql userName sprintId))))
  /\ ((exists a b, userName = a +:+ " " +:+ b) ->
      userTasksJql userName sprintId
        = "sprint = " +:+ pretty sprintId +:+ " AND assignee ~ "
          +:+ dquote +:+ userName +:+ dquote
          +:+ " ORDER BY status ASC, created DESC")
  /\ (~ (exists a b, userName = a +:+ " " +:+ b) ->
      userTasksJql userName sprintId
        = "sprint = " +:+ pretty sprintId +:+ " AND assignee ~ " +:+ userName
          +:+ " ORDER BY status ASC, created DESC").
Proof.
  split; [|split].
  - unfold run, getUserTasks, try_catch, mbind, M_bind, bind, request, ret, throw.
    by destruct (searchJira client (userTasksJql userName sprintId)) as [[| |l]|e].
  - intros H%includes_space_spec. unfold userTasksJql. by rewrite H.
  - intros H. unfold userTasksJql.
    destruct (includes_space userName) eqn:Hs; [|done].
    by apply includes_space_spec in Hs.
Qed.

(** When the sprint is resolved, [getSprintDetails] succeeds, whatever
    the issue search does: it searches the issues of the resolved sprint,
    once and after the resolver's requests, and reports that sprint, the
    issues found, their number and their aggregate. *)
Theorem getSprintDetails_resolved
    (client : Client) (config : Config) (boardId : option Z)
    (t : list call) (s : Sprint) :
  run (getActiveSprint client config boardId) = (t, Ok s) ->
  let issues := issues_of (searchJira client (sprintJql (id s))) in
  run (getSprintDetails client config boardId)
    = (t ++ [SearchJira (sprintJql (id s))],
       Ok {| d_sprint := sprintView s;
             d_issues := fst (aggregate issues);
             d_progress := snd (aggregate issues);
             allIssues := issues |})
  /\ total (fst (aggregate issues)) = length issues.
Proof.
  intros Hrun. cbn zeta. split; [|reflexivity].
  unfold run in *. rewrite getSprintDetails_unfold, Hrun, getSprintIssues_unfold.
  reflexivity.
Qed.

Lemma getSprintDetails_resolved_sample :
  let issues := issues_of (searchJira active_client (sprintJql 12)) in
  run (getSprintDetails active_client sample_config None)
    = ([BoardsForProject "ACME"; BoardSprints 7 true] ++ [SearchJira (sprintJql 12)],
       Ok {| d_sprint := sprintView (sprint_at 12 (Some mar_2024));
             d_issues := fst (aggregate issues);
             d_progress := snd (aggregate issues);
             allIssues := issues |})
  /\ total (fst (aggregate issues)) = length issues.
Proof.
  apply (getSprintDetails_resolved active_client sample_config None
           [BoardsForProject "ACME"; BoardSprints 7 true]
           (sprint_at 12 (Some mar_2024))).
  reflexivity.
Defined.

(** A rejected issue search does not fail [getSprintDetails]: the sprint
    is reported as having no issue at all, with no points and 0 percent
    complete. *)
Theorem getSprintDetails_search_rejected
    (client : Client) (config : Config) (boardId : option Z)
    (t : list call) (s : Sprint) (e : exn) :
  run (getActiveSprint client config boardId) = (t, Ok s) ->
  searchJira client (sprintJql (id s)) = Throw e ->
  run (getSprintDetails client config boardId)
    = (t ++ [SearchJira (sprintJql (id s))],
       Ok {| d_sprint := sprintView s;
             d_issues := {| total := 0; byStatus := ∅; byType := ∅ |};
             d_progress := {| p_completedPoints := 0; p_totalPoints := 0;
                              percentComplete := 0 |};
             allIssues := [] |}).
Proof.
  intros Hrun Hsearch. unfold run in *.
  rewrite getSprintDetails_unfold, Hrun, getSprintIssues_unfold, Hsearch.
  reflexivity.
Qed.

Lemma getSprintDetails_search_rejected_sample :
  run (getSprintDetails (search_down (JsError "timeout")) sample_config None)
    = ([BoardsForProject "ACME"; BoardSprints 7 true; BoardSprints 7 false]
         ++ [SearchJira (sprintJql (id (sprint_at 3 (Some mar_2024))))],
       Ok {| d_sprint := sprintView (sprint_at 3 (Some mar_2024));
             d_issues := {| total := 0; byStatus := ∅; byType := ∅ |};
             d_progress := {| p_completedPoints := 0; p_totalPoints := 0;
                              percentComplete := 0 |};
             allIssues := [] |}).
Proof.
  apply (getSprintDetails_search_rejected (search_down (JsError "timeout"))
           sample_config None
           [BoardsForProject "ACME"; BoardSprints 7 true; BoardSprints 7 false]
           (sprint_at 3 (Some mar_2024)) (JsError "timeout")); reflexivity.
Defined.

(** The sprint of the details always has a goal, and never the empty one;
    its other fields are those of the resolved sprint. *)
Theorem sprintView_goal (s : Sprint) :
  (exists g, goal (sprintView s) = Some g /\ g <> ""%string
             /\ (forall g', goal s = Some g' -> g' <> ""%string -> g = g')
             /\ (goal s = None \/ goal s = Some ""%string ->
                 g = "Sem objetivo definido"%string))
  /\ id (sprintView s) = id s /\ name (sprintView s) = name s
  /\ startDate (sprintView s) = startDate s /\ endDate (sprintView s) = endDate s
  /\ state (sprintView s) = state s.
Proof.
  split; [|done]. unfold sprintView. cbn [goal].
  destruct (goal s) as [g|] eqn:Hg.
  - destruct (decide (g = ""%string)) as [->|Hne]; eexists; split; try done.
    + split; [done|]. split; [by intros g' [= <-]|done].
    + split; [done|]. split; [by intros g' [= <-]|].
      intros [|[= ->]]; done.
  - eexists. split; [done|]. split; [done|]. split; [done|]. done.
Qed.

(** ** Histograms and progress *)

Lemma loop_histograms (issues : list Issue) :
  statusCounts (loop issues) = histogram (map status issues)
  /\ typeCounts (loop issues) = histogram (map issuetype issues).
Proof.
  unfold histogram.
  induction issues as [|i l [IHs IHt]] using rev_ind; [done|].
  rewrite loop_snoc, !map_app, !fold_left_app. cbn. by rewrite IHs, IHt.
Qed.

Lemma histogram_snoc (labels : list string) (l : string) :
  histogram (labels ++ [l]) = Obj.bump (histogram labels) l.
Proof. unfold histogram. by rewrite fold_left_app. Qed.

(** A bucket of the histogram of plain labels holds the number of
    occurrences of its label, and labels that do not occur have no
    bucket. *)
Lemma histogram_lookup (labels : list string) (k : string) :
  Forall (fun l => Obj.inherited l = None) labels ->
  let n := N.of_nat (length (List.filter (fun l => bool_decide (l = k)) labels)) in
  histogram labels !! k = if decide (n = 0%N) then None else Some (JNum n).
Proof.
  cbn zeta. induction labels as [|l ls IH] using rev_ind; intros Hall.
  { done. }
  apply Forall_app in Hall as [Hls Hl]. rewrite Forall_singleton in Hl.
  specialize (IH Hls). rewrite histogram_snoc, List.filter_app, length_app.
  unfold Obj.bump.
  destruct (decide (l = "__proto__"%string)) as [->|_];
    [by rewrite inherited_proto in Hl|].
  cbn [List.filter]. destruct (bool_decide_reflect (l = k)) as [->|Hne].
  - rewrite lookup_insert_eq. unfold Obj.next. rewrite IH, Hl. cbn [length].
    set (n := length (List.filter (fun l => bool_decide (l = k)) ls)).
    destruct (decide (N.of_nat n = 0%N)) as [Hz|Hnz];
      destruct (decide (N.of_nat (n + 1) = 0%N)); try lia.
    + f_equal. f_equal. lia.
    + f_equal. f_equal. lia.
  - rewrite lookup_insert_ne by done. rewrite IH. cbn [length].
    by rewrite Nat.add_0_r.
Qed.

Lemma count_label_map (f : Issue -> string) (k : string) (issues : list Issue) :
  count_label f k issues
    = N.of_nat (length (List.filter (fun l => bool_decide (l = k)) (map f issues))).
Proof.
  unfold count_label. f_equal.
  induction issues as [|i l IH]; cbn; [done|].
  destruct (bool_decide (f i = k)); cbn; by rewrite IH.
Qed.

(** As long as no status or type label is a member name of
    [Object.prototype], each bucket of the two histograms holds the number
    of issues that carry its label, and a label carried by no issue has no
    bucket. *)
Theorem histogram_counts (issues : list Issue) (k : string) :
  Forall (fun i => Obj.inherited (status i) = None
                   /\ Obj.inherited (issuetype i) = None) issues ->
  let c := fst (aggregate issues) in
  byStatus c !! k
    = (if decide (count_label status k issues = 0%N) then None
       else Some (JNum (count_label status k issues)))
  /\ byType c !! k
     = (if decide (count_label issuetype k issues = 0%N) then None
        else Some (JNum (count_label issuetype k issues))).
Proof.
  intros Hall. cbn zeta. unfold aggregate. cbn [fst byStatus byType].
  destruct (loop_histograms issues) as [-> ->].
  rewrite !count_label_map. split; apply histogram_lookup.
  - apply Forall_map. eapply Forall_impl; [exact Hall|]. by intros i [? ?].
  - apply Forall_map. eapply Forall_impl; [exact Hall|]. by intros i [? ?].
Qed.

Lemma histogram_counts_sample :
  let c := fst (aggregate issues_5_of_8) in
  byStatus c !! "Story"%string
    = (if decide (count_label status "Story" issues_5_of_8 = 0%N) then None
       else Some (JNum (count_label status "Story" issues_5_of_8)))
  /\ byType c !! "Story"%string
     = (if decide (count_label issuetype "Story" issues_5_of_8 = 0%N) then None
        else Some (JNum (count_label issuetype "Story" issues_5_of_8))).
Proof.
  apply (histogram_counts issues_5_of_8 "Story").
  repeat constructor.
Defined.

Lemma histogram_sums_plain_labels_sample :
  let c := fst (aggregate issues_5_of_8) in
  Obj.sum_values (byStatus c) = Some (N.of_nat (total c))
  /\ Obj.sum_values (byType c) = Some (N.of_nat (total c)).
Proof.
  apply (histogram_sums_plain_labels issues_5_of_8).
  repeat constructor.
Defined.

Lemma zero_div_pos (t : float) : (0 <? t)%float = true -> (0 / t)%float = 0%float.
Proof.
  rewrite ltb_spec. intros Hlt. apply Prim2SF_inj. rewrite div_spec.
  change (Prim2SF 0) with (S754_zero false) in *.
  unfold SFltb in Hlt.
  destruct (Prim2SF t) as [s|[]| |[] m e]; cbn in *; done.
Qed.

Lemma loop_nothing_done (issues : list Issue) :
  Forall (fun i => includes doneStatuses (status i) = false) issues ->
  completedPoints (loop issues) = 0%float.
Proof.
  induction issues as [|i l IH] using rev_ind; intros Hall; [done|].
  apply Forall_app in Hall as [Hl Hi]. rewrite Forall_singleton in Hi.
  rewrite loop_snoc. cbn [step completedPoints]. rewrite Hi. by apply IH.
Qed.

(** When no issue has a done status, the completed points are 0 and so is
    the percentage, whatever the story points are. *)
Theorem nothing_done_zero_percent (issues : list Issue) :
  Forall (fun i => includes doneStatuses (status i) = false) issues ->
  let p := snd (aggregate issues) in
  p_completedPoints p = 0%float /\ percentComplete p = 0%float.
Proof.
  intros Hall. cbn zeta. unfold aggregate.
  cbn [snd p_completedPoints percentComplete].
  rewrite (loop_nothing_done issues Hall). split; [done|].
  unfold percent. destruct (0 <? totalPoints (loop issues))%float eqn:Ht; [|done].
  by rewrite zero_div_pos.
Qed.

Lemma nothing_done_zero_percent_sample :
  let p := snd (aggregate issues_open) in
  p_completedPoints p = 0%float /\ percentComplete p = 0%float.
Proof.
  apply (nothing_done_zero_percent issues_open).
  repeat constructor.
Defined.

(** * Further properties of the tool parameters *)

Lemma digit_cases (c : Ascii.ascii) :
  is_digit c ->
  In c [ "0"; "1"; "2"; "3"; "4"; "5"; "6"; "7"; "8"; "9" ]%char.
Proof.
  intros (d & Hd & ->).
  assert (d = 0 \/ d = 1 \/ d = 2 \/ d = 3 \/ d = 4 \/ d = 5 \/ d = 6
          \/ d = 7 \/ d = 8 \/ d = 9)%N as Hc by lia.
  repeat (destruct Hc as [-> | Hc]; [cbn; tauto|]). subst d. cbn. tauto.
Qed.

Lemma digitValue_char (d : N) :
  (d < 10)%N -> Schema.digitValue (pretty_N_char d) = Some (Z.of_N d).
Proof.
  intros Hd.
  assert (d = 0 \/ d = 1 \/ d = 2 \/ d = 3 \/ d = 4 \/ d = 5 \/ d = 6
          \/ d = 7 \/ d = 8 \/ d = 9)%N as Hc by lia.
  repeat (destruct Hc as [-> | Hc]; [reflexivity|]). by subst d.
Qed.

Lemma is_digit_no_hex_mark (c : Ascii.ascii) (rest : string) :
  is_digit c -> no_hex_mark (String c rest).
Proof.
  intros Hc%digit_cases. cbn in Hc. cbn [no_hex_mark].
  intuition (subst; discriminate).
Qed.

Lemma pretty_N_go_app (x : N) (s1 s2 : string) :
  pretty_N_go x s1 +:+ s2 = pretty_N_go x (s1 +:+ s2).
Proof.
  revert s1. induction (N.lt_wf_0 x) as [x _ IH]; intros s1.
  assert (x = 0 \/ 0 < x)%N as [-> | Hx] by lia; [done|].
  rewrite (pretty_N_go_step x s1), (pretty_N_go_step x (s1 +:+ s2)) by done.
  rewrite IH; [reflexivity|].
  by apply N.div_lt.
Qed.

(** The rendering of a positive number starts with a digit, and is not
    the start of a hexadecimal literal. *)
Lemma pretty_N_go_shape (x : N) (s : string) :
  (0 < x)%N -> no_hex_mark s ->
  exists c rest, pretty_N_go x s = String c rest /\ is_digit c /\ no_hex_mark rest.
Proof.
  revert s. induction (N.lt_wf_0 x) as [x _ IH]; intros s Hx Hs.
  rewrite pretty_N_go_step by done.
  assert (is_digit (pretty_N_char (x `mod` 10))) as Hc.
  { exists (x `mod` 10)%N. split; [|done]. by apply N.mod_lt. }
  destruct (N.eq_0_gt_0_cases (x `div` 10)) as [-> | Hdiv].
  - rewrite pretty_N_go_0. eauto.
  - apply IH; [by apply N.div_lt | done | by apply is_digit_no_hex_mark].
Qed.

(** Reading the rendering of a positive number appends its digits to the
    digits read so far. *)
Lemma digits_pretty_N_go (x : N) :
  (0 < x)%N ->
  exists k, 0 <= k /\ forall s acc,
    Schema.digits 10 (pretty_N_go x s) acc
      = Schema.digits 10 s (Some (10 ^ k * default 0 acc + Z.of_N x)).
Proof.
  induction (N.lt_wf_0 x) as [x _ IH]; intros Hx.
  assert (x `mod` 10 < 10)%N as Hmod by (by apply N.mod_lt).
  pose proof (N.div_mod x 10 ltac:(done)) as Hdm.
  destruct (N.eq_0_gt_0_cases (x `div` 10)) as [Hdiv | Hdiv].
  - exists 1. split; [lia|]. intros s acc. rewrite pretty_N_go_step, Hdiv, pretty_N_go_0 by done.
    cbn [Schema.digits]. rewrite digitValue_char by done.
    replace (Z.of_N (x `mod` 10) <? 10) with true by (symmetry; apply Z.ltb_lt; lia).
    f_equal. f_equal. unfold Datatypes.id.
    assert (Z.of_N x = Z.of_N (x `mod` 10)) as -> by lia. lia.
  - destruct (IH (x `div` 10)%N) as (k & Hk0 & Hk); [by apply N.div_lt | done |].
    exists (Z.succ k). split; [lia|]. intros s acc. rewrite pretty_N_go_step, Hk by done.
    cbn [Schema.digits]. rewrite digitValue_char by done.
    replace (Z.of_N (x `mod` 10) <? 10) with true by (symmetry; apply Z.ltb_lt; lia).
    f_equal. f_equal. cbn [default].
    assert (Z.of_N x = 10 * Z.of_N (x `div` 10) + Z.of_N (x `mod` 10)) as Hz by lia.
    rewrite Z.pow_succ_r, Hz by done. unfold Datatypes.id. ring.
Qed.

Lemma digits_stop (s : string) (acc : option Z) :
  ends_number s -> Schema.digits 10 s acc = acc.
Proof.
  destruct s as [|c rest]; [done|]. intros (_ & _ & Hd). cbn [Schema.digits].
  destruct (Schema.digitValue c) as [d|]; [|done].
  specialize (Hd d eq_refl).
  by replace (d <? 10) with false by (symmetry; apply Z.ltb_ge; lia).
Qed.

Lemma ends_number_no_hex_mark (s : string) : ends_number s -> no_hex_mark s.
Proof. destruct s; [done|]. by intros (? & ? & _). Qed.

(** A one-byte character that is not white space stops [trimStart]. *)
Lemma trimStart_stop (c : Ascii.ascii) (rest : string) :
  Schema.code c < 128 -> Schema.isWhiteSpace c = false ->
  Schema.trimStart (String c rest) = String c rest.
Proof.
  intros Hc Hw. cbn [Schema.trimStart]. rewrite Hw.
  destruct rest as [|c2 r2]; [done|].
  assert (Schema.isWhiteSpace2 c c2 = false) as ->.
  { unfold Schema.isWhiteSpace2.
    by replace (Schema.code c =? 194) with false by (symmetry; apply Z.eqb_neq; lia). }
  destruct r2 as [|c3 r3]; [done|].
  assert (Schema.isWhiteSpace3 c c2 c3 = false) as ->; [|done].
  unfold Schema.isWhiteSpace3. cbv zeta.
  replace (Schema.code c =? 225) with false by (symmetry; apply Z.eqb_neq; lia).
  replace (Schema.code c =? 226) with false by (symmetry; apply Z.eqb_neq; lia).
  replace (Schema.code c =? 227) with false by (symmetry; apply Z.eqb_neq; lia).
  replace (Schema.code c =? 239) with false by (symmetry; apply Z.eqb_neq; lia).
  reflexivity.
Qed.

Lemma trimStart_digit (c : Ascii.ascii) (rest : string) :
  is_digit c -> Schema.trimStart (String c rest) = String c rest.
Proof.
  intros Hc%digit_cases. cbn in Hc.
  repeat (destruct Hc as [<- | Hc]; [by apply trimStart_stop|]). done.
Qed.

(** [parseInt] on a string that starts with a decimal digit and is not a
    hexadecimal literal reads decimal digits from its start. *)
Lemma parseInt_digit_led (c : Ascii.ascii) (rest : string) :
  is_digit c -> no_hex_mark rest ->
  Schema.parseInt (String c rest) = Schema.digits 10 (String c rest) None
  /\ Schema.parseInt (String "-" (String c rest))
     = option_map Z.opp (Schema.digits 10 (String c rest) None).
Proof.
  intros Hc Hrest. unfold Schema.parseInt.
  rewrite (trimStart_stop "-" (String c rest)) by done.
  rewrite trimStart_digit by done.
  apply digit_cases in Hc. cbn in Hc.
  repeat (destruct Hc as [<- | Hc]); try done.
  all: cbv iota.
  2-10: split; [by destruct (Schema.digits 10 _ None)
               | by destruct (Schema.digits 10 _ None)].
  destruct rest as [|c' rest']; [by split|].
  destruct Hrest as [Hx HX].
  split; head_char c'; by destruct (Schema.digits 10 _ None).
Qed.

Lemma append_empty_r (s : string) : s +:+ "" = s.
Proof.
  induction s as [|c s IH]; [done|].
  change (String c s +:+ "") with (String c (s +:+ "")). by rewrite IH.
Qed.

Lemma parseInt_pretty_then (n : Z) (s : string) :
  ends_number s -> Schema.parseInt (pretty n +:+ s) = Some n.
Proof.
  intros Hs. pose proof (ends_number_no_hex_mark s Hs) as Hmark.
  destruct n as [|p|p].
  - change (pretty 0 +:+ s) with (String "0" s).
    assert (is_digit "0") as H0 by (by exists 0%N).
    destruct (parseInt_digit_led "0" s H0 Hmark) as [-> _].
    cbn [Schema.digits]. change (Schema.digitValue "0") with (Some 0).
    change (0 <? 10) with true. cbv iota. by rewrite digits_stop.
  - change (pretty (Z.pos p)) with (pretty_N_go (N.pos p) "").
    rewrite pretty_N_go_app. change ("" +:+ s) with s.
    destruct (pretty_N_go_shape (N.pos p) s) as (c & rest & Heq & Hc & Hrest);
      [done..|].
    destruct (digits_pretty_N_go (N.pos p)) as (k & _ & Hk); [done|].
    pose proof (Hk s None) as Hd. rewrite Heq in *.
    destruct (parseInt_digit_led c rest Hc Hrest) as [-> _].
    rewrite Hd, digits_stop by done. cbn. f_equal. lia.
  - change (pretty (Z.neg p) +:+ s)
      with (String "-" (pretty_N_go (N.pos p) "" +:+ s)).
    rewrite pretty_N_go_app. change ("" +:+ s) with s.
    destruct (pretty_N_go_shape (N.pos p) s) as (c & rest & Heq & Hc & Hrest);
      [done..|].
    destruct (digits_pretty_N_go (N.pos p)) as (k & _ & Hk); [done|].
    pose proof (Hk s None) as Hd. rewrite Heq in *.
    destruct (parseInt_digit_led c rest Hc Hrest) as [_ ->].
    rewrite Hd, digits_stop by done. cbn. f_equal. lia.
Qed.

(** [parseInt] reads back the decimal rendering of an integer, and stops
    at the first character behind it that cannot continue a number:
    ["12abc"], ["12.5"] and ["12 "] are all read as 12. *)
Theorem parseInt_pretty_prefix (n : Z) (s : string) :
  Z.abs n <= 2 ^ 53 ->
  ends_number s -> Schema.parseInt (pretty n +:+ s) = Some n.
Proof. intros _. apply parseInt_pretty_then. Qed.

Lemma parseInt_pretty (n : Z) : Schema.parseInt (pretty n) = Some n.
Proof. rewrite <- (append_empty_r (pretty n)). by apply parseInt_pretty_then. Qed.

Lemma parseInt_pretty_prefix_sample :
  Schema.parseInt (pretty 12 +:+ "abc") = Some 12.
Proof.
  apply (parseInt_pretty_prefix 12 "abc"); [by vm_compute|].
  repeat split; try discriminate.
  intros d Hd. vm_compute in Hd. injection Hd as <-. lia.
Defined.

(** A board id passed as the decimal string of an integer is the board id
    passed as that number. *)
Theorem boardId_decimal_string (n : Z) :
  Z.abs n <= 2 ^ 53 ->
  Schema.parseInt (pretty n) = Some n
  /\ Schema.boardId (Schema.Str (pretty n)) = Schema.boardId (Schema.Num n).
Proof.
  intros Hn. pose proof (parseInt_pretty n) as H.
  split; [done|]. exact H.
Qed.

Lemma boardId_decimal_string_sample :
  Schema.parseInt (pretty 1234) = Some 1234
  /\ Schema.boardId (Schema.Str (pretty 1234)) = Schema.boardId (Schema.Num 1234).
Proof. apply (boardId_decimal_string 1234). by vm_compute. Defined.




(** * Further properties of the projection and of start-up *)

Lemma positive_not_negative (y : float) :
  (0 <? y)%float = true -> (y <? 0)%float = false /\ (0 <=? y)%float = true.
Proof.
  rewrite !ltb_spec, leb_spec. change (Prim2SF 0) with (S754_zero false).
  unfold SFltb, SFleb.
  destruct (Prim2SF y) as [s|s| |s m e]; cbn; try done; by destruct s.
Qed.

(** The number of days left is never negative: it is a number that is at
    least 0, or [NaN] (when the sprint has no end date). *)
Theorem daysLeft_never_negative (sprint : Sprint) (progress : Progress) (today : Z) :
  let d := daysLeft (project sprint progress today) in
  (d <? 0)%float = false
  /\ ((0 <=? d)%float = true \/ is_nan d = true).
Proof.
  cbn zeta. unfold project, velocity. cbn [daysLeft].
  set (y := JS.Math_floor _). unfold JS.Math_max.
  change (is_nan 0) with false. cbn [orb].
  destruct (is_nan y) eqn:Hn; [by split; [|right]|].
  destruct (0 <? y)%float eqn:Hpos.
  { destruct (positive_not_negative y Hpos). auto. }
  destruct (y <? 0)%float; [by split; [|left]|].
  change (get_sign 0) with false. by split; [|left].
Qed.




(** A [JIRA_BOARD_ID] that is the decimal string of a non-zero integer
    makes that integer the board of every call that names no board; the
    project's boards are then never listed. *)
Theorem env_board_id_used
    (env : gmap string string) (v : EnvVars) (client : Client) (n : Z) :
  loadEnvVars env = Started v ->
  env !! "JIRA_BOARD_ID"%string = Some (pretty n) ->
  n <> 0 -> Z.abs n <= 2 ^ 53 ->
  defaultBoardId (managerConfig v) = Some n
  /\ targetBoard client (managerConfig v) None [] = ([], Ok n).
Proof.
  intros Hload Henv Hn Hsafe.
  pose proof (parseInt_pretty n) as Hparse.
  assert (JIRA_BOARD_ID v = Some n) as Hid.
  { unfold loadEnvVars in Hload. destruct (0 <? _)%nat; [discriminate|].
    injection Hload as <-. cbn [JIRA_BOARD_ID]. unfold unset. rewrite Henv.
    destruct (bool_decide_reflect (pretty n = ""%string)) as [Hempty|_].
    - rewrite Hempty in Hparse. discriminate.
    - done. }
  split; [done|].
  unfold targetBoard, managerConfig, or_opt. cbn [falsy defaultBoardId].
  rewrite Hid. by destruct (Z.eqb_spec n 0).
Qed.

Lemma env_board_id_used_sample :
  exists v,
    loadEnvVars sample_env = Started v
    /\ defaultBoardId (managerConfig v) = Some 42
    /\ targetBoard sample_client (managerConfig v) None [] = ([], Ok 42).
Proof.
  eexists. split; [by vm_compute|].
  apply (env_board_id_used sample_env _ sample_client 42);
    [by vm_compute | by vm_compute | discriminate | by vm_compute].
Defined.


